(** * Mavoo invoice splitter: a shallow embedding of [app.py]

    The development follows the Python source top to bottom: text and the two
    regular expressions, the PDF library and file system as a small
    state-and-error monad, [split_invoices], [allowed_file], the upload
    endpoint and the download endpoint.  Theorems come after all
    definitions. *)

From Stdlib Require Import NArith Ascii String.
From stdpp Require Import base option list gmap.

Local Open Scope N_scope.
Local Open Scope list_scope.

(** ** Text *)

(** A Python [str] is a sequence of Unicode code points. *)
Abbreviation char := N.
Abbreviation pystr := (list char).

(** Source literals, written as Rocq strings (all of them are ASCII). *)
Definition py (s : string) : pystr := map N_of_ascii (list_ascii_of_string s).

(** [str.isspace] for one character, which is also what [\s] matches in a
    [str] pattern: the code points CPython lists as whitespace. *)
Definition is_space (c : char) : bool :=
  ((9 <=? c) && (c <=? 13)) || ((28 <=? c) && (c <=? 32))
  || (c =? 133) || (c =? 160) || (c =? 5760)
  || ((8192 <=? c) && (c <=? 8202))
  || (c =? 8232) || (c =? 8233) || (c =? 8239) || (c =? 8287) || (c =? 12288).

Definition pystr_eqb (a b : pystr) : bool := bool_decide (a = b).

(** ** Regular expressions, as far as the two patterns need them *)

Module Re.

(** One-character matchers: a literal, [.] (anything but a line feed), [\s]
    and [\S]. *)
Inductive cls := Lit (c : char) | Dot | Ws | NonWs.

(** Pattern items: one character, [x+] (greedy), and a capturing group around
    [x+]. A pattern is a sequence of items. *)
Inductive item := One (a : cls) | Plus (a : cls) | Group (a : cls).

Definition accepts (a : cls) (c : char) : bool :=
  match a with
  | Lit d => c =? d
  | Dot => negb (c =? 10)
  | Ws => is_space c
  | NonWs => negb (is_space c)
  end.

(** Greedy [a+] followed by the rest of the pattern [k]: take one more
    character whenever possible, give characters back only when the rest
    fails. Returns the run consumed by [a+] and what [k] returned. *)
Fixpoint greedy {R} (a : cls) (k : pystr -> option R) (s : pystr)
  : option (pystr * R) :=
  match s with
  | [] => None
  | c :: s' =>
      if accepts a c then
        match greedy a k s' with
        | Some (run, r) => Some (c :: run, r)
        | None => match k s' with Some r => Some ([c], r) | None => None end
        end
      else None
  end.

(** Match the pattern at the start of [s]; the result is the list of the
    groups' texts, in order. *)
Fixpoint match_at (r : list item) (s : pystr) : option (list pystr) :=
  match r with
  | [] => Some []
  | One a :: r' =>
      match s with
      | c :: s' => if accepts a c then match_at r' s' else None
      | [] => None
      end
  | Plus a :: r' =>
      match greedy a (match_at r') s with
      | Some (_, gs) => Some gs
      | None => None
      end
  | Group a :: r' =>
      match greedy a (match_at r') s with
      | Some (run, gs) => Some (run :: gs)
      | None => None
      end
  end.

(** [pattern.search(text)]: the leftmost position where the pattern matches. *)
Fixpoint search (r : list item) (s : pystr) : option (list pystr) :=
  match match_at r s with
  | Some gs => Some gs
  | None => match s with [] => None | _ :: s' => search r s' end
  end.

(** [m.group(1)] *)
Definition group1 (gs : list pystr) : pystr := nth 0%nat gs [].

Definition lits (s : string) : list item := map (fun c => One (Lit c)) (py s).

End Re.

(** [re.compile(r"Document No. : (\S+)")]: the dot after [No] is a regular
    expression dot. *)
Definition doc_pattern : list Re.item :=
  Re.lits "Document No" ++ [Re.One Re.Dot] ++ Re.lits " : " ++ [Re.Group Re.NonWs].

(** [re.compile(r"Recipient\s+:\s+GSTIN\s+:\s+(\S+)")] *)
Definition gst_pattern : list Re.item :=
  Re.lits "Recipient" ++ [Re.Plus Re.Ws] ++ Re.lits ":" ++ [Re.Plus Re.Ws]
  ++ Re.lits "GSTIN" ++ [Re.Plus Re.Ws] ++ Re.lits ":" ++ [Re.Plus Re.Ws]
  ++ [Re.Group Re.NonWs].

(** ** The world outside the program *)

(** A PDF page: the text [get_text] extracts from it, and the rest of what is
    on the page. *)
Record page := Page { page_text : pystr; page_body : N }.

#[local] Set Warnings "-register-all".

(** What a file holds: a PDF, a ZIP archive (member names with their
    contents, in archive order), or anything else; what a library reads in
    content of the last kind is the library's affair ([fitz_reads] below). *)
Inductive blob :=
| Pdf (pages : list page)
| Zip (members : list (pystr * blob))
| Raw (bytes : list N).

Inductive exn :=
| IndexError
| KeyError
| FileDataError
| BadZipFile
| FileNotFoundError
| SourceNotPdf
| LibraryError (code : N).

(** The file system, the trace of PDFs saved so far (oldest first), the
    source documents currently open, and the number of library and system
    calls made so far. *)
Record world := World {
  disk : gmap pystr blob;
  saved : list (pystr * list page);
  open_docs : list pystr;
  clock : nat }.

(** A document as PyMuPDF holds it: whether it is a PDF, and its pages.
    MuPDF reads more than PDFs (images, XPS, EPUB and others), and tells
    what a file is by its content. *)
Record document := Document { is_pdf : bool; doc_pages : list page }.

(** What the program takes from Python, werkzeug, PyMuPDF and Flask, and what
    the machine may do to it: [str.upper], [str.lower],
    [werkzeug.utils.secure_filename]; what [fitz.open] makes of a file that is
    not a PDF file proper (nothing, or a document that may even count as a
    PDF once MuPDF has repaired it); the file that a path names when it is
    taken relative to [app.root_path] instead of the working directory, in
    the working directory's terms; and for each library or system call
    (numbered in the order they are made) whether it fails and with what. *)
Record platform := Platform {
  upper : pystr -> pystr;
  lower : pystr -> pystr;
  secure_filename : pystr -> pystr;
  fitz_reads : blob -> option document;
  in_root_path : pystr -> pystr;
  fault : nat -> option exn }.

(** The ASCII part of [str.upper] and [str.lower]. *)
Definition ascii_upper (s : pystr) : pystr :=
  map (fun c => if (97 <=? c) && (c <=? 122) then c - 32 else c) s.
Definition ascii_lower (s : pystr) : pystr :=
  map (fun c => if (65 <=? c) && (c <=? 90) then c + 32 else c) s.

(** ** Computations that change the world and may raise *)

Definition M (A : Type) : Type := world -> (exn + A) * world.

Definition ret {A} (a : A) : M A := fun w => (inr a, w).
Definition raise {A} (e : exn) : M A := fun w => (inl e, w).
Definition bind {A B} (m : M A) (k : A -> M B) : M B :=
  fun w => match m w with
           | (inr a, w1) => k a w1
           | (inl e, w1) => (inl e, w1)
           end.

Declare Scope py_scope.
Delimit Scope py_scope with py.
Notation "'let*' x := m 'in' k" := (bind m (fun x => k))
  (at level 10, x name, m at level 100, k at level 200) : py_scope.
Notation "m ;;; k" := (bind m (fun _ => k))
  (at level 100, k at level 200, right associativity) : py_scope.
Local Open Scope py_scope.

(** [try: body / except Exception as e: handler e] *)
Definition try_except {A} (body : M A) (handler : exn -> M A) : M A :=
  fun w => match body w with
           | (inl e, w1) => handler e w1
           | (inr a, w1) => (inr a, w1)
           end.

(** [try: body / finally: cleanup] *)
Definition try_finally {A} (body : M A) (cleanup : M unit) : M A :=
  fun w => match body w with
           | (r, w1) =>
               match cleanup w1 with
               | (inl e, w2) => (inl e, w2)
               | (inr _, w2) => (r, w2)
               end
           end.

(** [for x in xs: s = body x s] *)
Fixpoint for_each {A S} (xs : list A) (body : A -> S -> M S) (s : S) : M S :=
  match xs with
  | [] => ret s
  | x :: xs' => let* s' := body x s in for_each xs' body s'
  end.

(** [xs[i]] on a Python list *)
Definition index {A} (xs : list A) (i : nat) : M A :=
  match xs !! i with
  | Some x => ret x
  | None => raise IndexError
  end.

(** [os.path.join(a, b)] on POSIX: an absolute [b] replaces [a]; otherwise
    they are joined by [/] unless [a] is empty or brings its own. *)
Definition path_join (a b : pystr) : pystr :=
  if from_option (N.eqb 47) false (head b) then b
  else if from_option (N.eqb 47) true (last a) then a ++ b
  else a ++ py "/" ++ b.

Definition UPLOAD_FOLDER : pystr := py "uploads".
Definition OUTPUT_FOLDER : pystr := py "split_invoices".
Definition ALLOWED_EXTENSIONS : list pystr := [py "pdf"; py "zip"].

Section Program.

Variable P : platform.

(** Every library or system call that can fail asks the platform first. *)
Definition lib_call : M unit :=
  fun w =>
    let w' := World (disk w) (saved w) (open_docs w) (S (clock w)) in
    match fault P (clock w) with
    | Some e => (inl e, w')
    | None => (inr tt, w')
    end.

Definition set_disk (d : gmap pystr blob) : M unit :=
  fun w => (inr tt, World d (saved w) (open_docs w) (clock w)).

Definition get_disk : M (gmap pystr blob) := fun w => (inr (disk w), w).

(** *** PyMuPDF *)

(** What [fitz.open] makes of a file's content: a PDF file is a PDF document
    with its pages, and other content is what MuPDF reads in it, if
    anything. *)
Definition fitz_view (content : blob) : option document :=
  match content with
  | Pdf pages => Some (Document true pages)
  | _ => fitz_reads P content
  end.

(** [fitz.open(path)]: the document is what the file at [path] holds when it
    is opened. *)
Definition fitz_open (path : pystr) : M document :=
  lib_call ;;;
  fun w =>
    match disk w !! path with
    | Some content =>
        match fitz_view content with
        | Some doc =>
            (inr doc, World (disk w) (saved w) (path :: open_docs w) (clock w))
        | None => (inl FileDataError, w)
        end
    | None => (inl FileNotFoundError, w)
    end.

Fixpoint remove_first (path : pystr) (l : list pystr) : list pystr :=
  match l with
  | [] => []
  | x :: l' => if pystr_eqb x path then l' else x :: remove_first path l'
  end.

(** [doc.close()] *)
Definition fitz_close (path : pystr) : M unit :=
  fun w => (inr tt, World (disk w) (saved w) (remove_first path (open_docs w)) (clock w)).

(** [fitz.open()]: a new, empty PDF *)
Definition fitz_new : M (list page) := lib_call ;;; ret [].

(** [doc[page_num].get_text("text")] *)
Definition get_text (doc : list page) (page_num : nat) : M pystr :=
  lib_call ;;;
  let* page := index doc page_num in
  ret (page_text page).

(** [new_pdf.insert_pdf(doc, from_page=p, to_page=p)], the source [doc]
    given by whether it is a PDF and by its pages: page [p] of [doc] is
    appended, and a source that is no PDF is refused. The program only passes
    page numbers of [doc] ([spec_copy] below). *)
Definition insert_pdf (src_pdf : bool) (doc : list page) (p : nat) (new_pdf : list page)
  : M (list page) :=
  lib_call ;;;
  if src_pdf then
    let* page := index doc p in
    ret (new_pdf ++ [page])
  else raise SourceNotPdf.

(** [new_pdf.save(output_path)]: the file at [output_path] is replaced. *)
Definition pdf_save (new_pdf : list page) (output_path : pystr) : M unit :=
  lib_call ;;;
  fun w => (inr tt, World (<[output_path := Pdf new_pdf]> (disk w))
                          (saved w ++ [(output_path, new_pdf)])
                          (open_docs w) (clock w)).

(** *** split_invoices *)

(** The loop's variables. [invoice_data] is a Python list, empty or
    [[document id, GSTIN]]. *)
Record locals := Locals {
  invoice_pages : list nat;
  invoice_data : list pystr;
  split_files : list pystr }.

(** [not gstin_filter or gstin_filter.upper() == current_gstin.upper()] *)
Definition filter_passes (gstin_filter : option pystr) (current_gstin : pystr) : bool :=
  match gstin_filter with
  | None | Some [] => true
  | Some f => pystr_eqb (upper P f) (upper P current_gstin)
  end.

(** The block under "Save previous invoice" (lines 101-112), which is
    repeated under "Process the last invoice" (lines 122-133). *)
Definition save_invoice (src_pdf : bool) (doc : list page) (gstin_filter : option pystr)
    (st : locals) : M locals :=
  let* current_gstin := index (invoice_data st) 1 in
  if filter_passes gstin_filter current_gstin then
    let* d0 := index (invoice_data st) 0 in
    let* d1 := index (invoice_data st) 1 in
    let filename := secure_filename P (d0 ++ py "_" ++ d1 ++ py ".pdf") in
    let output_path := path_join OUTPUT_FOLDER filename in
    let* new_pdf := fitz_new in
    let* new_pdf := for_each (invoice_pages st) (insert_pdf src_pdf doc) new_pdf in
    pdf_save new_pdf output_path ;;;
    ret (Locals (invoice_pages st) (invoice_data st) (split_files st ++ [filename]))
  else ret st.

Definition nonempty {A} (l : list A) : bool :=
  match l with [] => false | _ => true end.

(** The body of [for page_num in range(len(doc))]. *)
Definition process_page (src_pdf : bool) (doc : list page) (gstin_filter : option pystr)
    (page_num : nat) (st : locals) : M locals :=
  let* text := get_text doc page_num in
  let doc_match := Re.search doc_pattern text in
  let gst_match := Re.search gst_pattern text in
  match doc_match, gst_match with
  | Some dm, Some gm =>
      let* st1 := (if nonempty (invoice_pages st)
                   then save_invoice src_pdf doc gstin_filter st
                   else ret st) in
      ret (Locals [page_num] [Re.group1 dm; Re.group1 gm] (split_files st1))
  | _, _ =>
      if nonempty (invoice_pages st)
      then ret (Locals (invoice_pages st ++ [page_num]) (invoice_data st) (split_files st))
      else ret st
  end.

Definition split_invoices (input_pdf : pystr) (gstin_filter : option pystr)
  : M (list pystr) :=
  let* src := fitz_open input_pdf in
  let src_pdf := is_pdf src in
  let doc := doc_pages src in
  let* st :=
    try_finally
      (try_except
         (let* st := for_each (seq 0 (length doc)) (process_page src_pdf doc gstin_filter)
                              (Locals [] [] []) in
          if nonempty (invoice_pages st)
          then save_invoice src_pdf doc gstin_filter st
          else ret st)
         (fun e => raise e))
      (fitz_close input_pdf) in
  ret (split_files st).

(** *** The upload endpoint *)

(** [filename.rsplit('.', 1)]: split at the last separator, if there is one. *)
Fixpoint rsplit_last (sep : char) (s : pystr) : option (pystr * pystr) :=
  match s with
  | [] => None
  | c :: s' =>
      match rsplit_last sep s' with
      | Some (a, b) => Some (c :: a, b)
      | None => if c =? sep then Some ([], s') else None
      end
  end.

Definition rsplit1 (sep : char) (s : pystr) : list pystr :=
  match rsplit_last sep s with
  | Some (a, b) => [a; b]
  | None => [s]
  end.

(** ['.' in filename and filename.rsplit('.', 1)[1].lower() in ALLOWED_EXTENSIONS] *)
Definition allowed_file (filename : pystr) : M bool :=
  if existsb (N.eqb 46) filename then
    let* ext := index (rsplit1 46 filename) 1 in
    ret (existsb (pystr_eqb (lower P ext)) ALLOWED_EXTENSIONS)
  else ret false.

Record file_storage := FileStorage { filename : pystr; stream : blob }.

(** The parsed request: [request.files] and [request.form], multi-dicts in
    which a key's first value is the one looked up. *)
Record request := Request {
  files : list (pystr * file_storage);
  form : list (pystr * pystr) }.

Fixpoint multidict_get {V} (key : pystr) (d : list (pystr * V)) : option V :=
  match d with
  | [] => None
  | (k, v) :: d' => if pystr_eqb k key then Some v else multidict_get key d'
  end.

Inductive json := JStr (s : pystr) | JList (l : list pystr).

(** [jsonify({...}), status] *)
Record response := Response { status : nat; body : list (pystr * json) }.

Fixpoint lstrip (s : pystr) : pystr :=
  match s with
  | c :: s' => if is_space c then lstrip s' else s
  | [] => []
  end.

(** [s.strip()] *)
Definition strip (s : pystr) : pystr := rev (lstrip (rev (lstrip s))).

(** [s.endswith(suffix)] *)
Definition endswith (s suffix : pystr) : bool :=
  pystr_eqb (drop (length s - length suffix) s) suffix.

(** [file.save(path)] and [open(path, 'wb').write(data)] *)
Definition write_file (path : pystr) (data : blob) : M unit :=
  lib_call ;;;
  let* d := get_disk in
  set_disk (<[path := data]> d).

(** [zipfile.ZipFile(path, 'r')] *)
Definition zip_open (path : pystr) : M (list (pystr * blob)) :=
  lib_call ;;;
  let* d := get_disk in
  match d !! path with
  | Some (Zip members) => ret members
  | Some _ => raise BadZipFile
  | None => raise FileNotFoundError
  end.

(** [zip_ref.open(name)]: of several members with one name the last counts. *)
Definition zip_member (members : list (pystr * blob)) (name : pystr) : M blob :=
  lib_call ;;;
  match multidict_get name (rev members) with
  | Some data => ret data
  | None => raise KeyError
  end.

(** [os.remove(path)] *)
Definition os_remove (path : pystr) : M unit :=
  lib_call ;;;
  let* d := get_disk in
  match d !! path with
  | Some _ => set_disk (delete path d)
  | None => raise FileNotFoundError
  end.

Definition error_body (msg : string) : list (pystr * json) :=
  [(py "error", JStr (py msg))].

(** The body of [upload_pdf]'s [try]. *)
Definition upload_pdf_try (req : request) : M response :=
  match multidict_get (py "file") (files req) with
  | None => ret (Response 400 (error_body "No file part"))
  | Some file =>
      let gstin_filter := strip (default [] (multidict_get (py "gstin") (form req))) in
      if pystr_eqb (filename file) [] then
        ret (Response 400 (error_body "No selected file"))
      else
        let* allowed := allowed_file (filename file) in
        if negb allowed then
          ret (Response 400
                 (error_body "Invalid file type. Only PDF and ZIP files are allowed."))
        else
          let fname := secure_filename P (filename file) in
          let file_path := path_join UPLOAD_FOLDER fname in
          write_file file_path (stream file) ;;;
          let* split_files :=
            if endswith (lower P fname) (py ".zip") then
              let* members := zip_open file_path in
              let pdf_files :=
                filter (fun f => endswith (lower P f) (py ".pdf") = true) (map fst members) in
              for_each pdf_files
                (fun pdf_file split_files =>
                   let extracted_path :=
                     path_join UPLOAD_FOLDER (secure_filename P pdf_file) in
                   (* zip_ref.open(pdf_file) as source *)
                   let* source := zip_member members pdf_file in
                   (* open(extracted_path, 'wb') as target *)
                   write_file extracted_path (Raw []) ;;;
                   (* source.read() *)
                   lib_call ;;;
                   (* target.write(...) *)
                   write_file extracted_path source ;;;
                   let* more := split_invoices extracted_path (Some gstin_filter) in
                   os_remove extracted_path ;;;
                   ret (split_files ++ more))
                []
            else split_invoices file_path (Some gstin_filter) in
          ret (Response 200 [(py "message", JStr (py "Files processed successfully!"));
                             (py "files", JList split_files)])
  end.

Definition upload_pdf (req : request) : M response :=
  try_except (upload_pdf_try req)
    (fun e => ret (Response 500
                     (error_body "An error occurred while processing the file"))).

(** *** The download endpoint *)

(** What an endpoint answers: a JSON response, or a file sent as an
    attachment under a download name. *)
Inductive reply :=
| Json (r : response)
| Attachment (download_name : pystr) (content : blob).

(** [send_file(path, as_attachment=True, download_name=name)]: Flask takes
    [path] relative to [app.root_path], not to the working directory that
    the paths of [split_invoices] are relative to. *)
Definition send_file (path download_name : pystr) : M reply :=
  lib_call ;;;
  let* d := get_disk in
  match d !! in_root_path P path with
  | Some content => ret (Attachment download_name content)
  | None => raise FileNotFoundError
  end.

Definition download_file (filename : pystr) : M reply :=
  try_except (send_file (path_join OUTPUT_FOLDER filename) filename)
    (fun e => ret (Json (Response 404 (error_body "File not found")))).

End Program.

(** ** Vocabulary of the specification *)

(** A marker page is one on which both patterns are found; it yields the
    captured document id and GSTIN ([doc_match.group(1)],
    [gst_match.group(1)]). *)
Definition marker (text : pystr) : option (pystr * pystr) :=
  match Re.search doc_pattern text, Re.search gst_pattern text with
  | Some dm, Some gm => Some (Re.group1 dm, Re.group1 gm)
  | _, _ => None
  end.

Definition is_marker (pg : page) : bool :=
  match marker (page_text pg) with Some _ => true | None => false end.

(** A token is a non-empty run of characters that are not whitespace; a run
    of whitespace is non-empty too. *)
Definition token (t : pystr) : Prop :=
  t <> [] /\ Forall (fun c => is_space c = false) t.

Definition spaces (s : pystr) : Prop :=
  s <> [] /\ Forall (fun c => is_space c = true) s.

(** [t] is the whole token at the start of [s]: what follows it is the end of
    the text or whitespace. *)
Definition leading_token (t s : pystr) : Prop :=
  exists rest,
    s = t ++ rest /\ token t /\
    match rest with [] => True | c :: _ => is_space c = true end.

Definition DOC_LABEL : pystr := py "Document No. : ".
Definition GST_LABEL : pystr := py "Recipient : GSTIN : ".

(** The text has the literal [label] somewhere, immediately followed by the
    token [t]. *)
Definition token_after (label t text : pystr) : Prop :=
  exists before after, text = before ++ label ++ after /\ leading_token t after.

(** Does [label] occur in [text]? *)
Fixpoint occurs (label text : pystr) : bool :=
  pystr_eqb (take (length label) text) label
  || match text with [] => false | _ :: text' => occurs label text' end.

(** What the document-id pattern matches at the start of [s]: [Document No],
    one character that is not a line feed, [ : ] and a token [t]. *)
Definition doc_shape (s t : pystr) : Prop :=
  exists c rest,
    s = py "Document No" ++ c :: py " : " ++ rest /\ c <> 10 /\ leading_token t rest.

(** What the GSTIN pattern matches at the start of [s]: the words of the label
    and its two colons, with a run of whitespace in each of the four gaps, and
    a token [g]. *)
Definition gst_shape (s g : pystr) : Prop :=
  exists w1 w2 w3 w4 rest,
    s = py "Recipient" ++ w1 ++ py ":" ++ w2 ++ py "GSTIN" ++ w3 ++ py ":" ++ w4 ++ rest /\
    spaces w1 /\ spaces w2 /\ spaces w3 /\ spaces w4 /\ leading_token g rest.

(** [shape] holds of [t] at some place in [text] and at no earlier place. *)
Definition leftmost (shape : pystr -> pystr -> Prop) (text t : pystr) : Prop :=
  exists before s,
    text = before ++ s /\ shape s t /\
    forall before' s' t',
      text = before' ++ s' -> shape s' t' -> (length before <= length before')%nat.

(** The rule with fixed labels: a page is a marker page exactly when a token
    follows each literal label, and the captures are those tokens. *)
Definition literal_label_rule (text : pystr) : Prop :=
  (is_Some (marker text) <->
   (exists t, token_after DOC_LABEL t text) /\ (exists t, token_after GST_LABEL t text)) /\
  (forall id gstin,
     marker text = Some (id, gstin) ->
     token_after DOC_LABEL id text /\ token_after GST_LABEL gstin text).

(** The numbers of the marker pages among pages [j], ..., [j + n - 1], in
    increasing order; and those of the whole document. *)
Definition markers_from (doc : list page) (j n : nat) : list nat :=
  filter (fun k => from_option is_marker false (doc !! k) = true) (seq j n).

Definition marker_positions (doc : list page) : list nat :=
  markers_from doc 0 (length doc).

(** Each marker position with the next one, or with [n] after the last. *)
Fixpoint blocks (ms : list nat) (n : nat) : list (nat * nat) :=
  match ms with
  | [] => []
  | m :: ms' => (m, default n (head ms')) :: blocks ms' n
  end.

(** Pages [from, to) of a document. *)
Definition slice (doc : list page) (from to : nat) : list page :=
  take (to - from) (drop from doc).

(** An invoice as the scan sees it: captured id, captured GSTIN, page
    numbers. *)
Abbreviation invoice := (pystr * pystr * list nat)%type.

Definition inv_gstin (i : invoice) : pystr := i.1.2.
Definition inv_pages (i : invoice) : list nat := i.2.

(** The invoices of a document, by a scan with the invoice under construction
    in [cur]: a marker page closes it and opens the next one, any other page
    joins it, and the end of the document closes it. [j] is the number of the
    first page of [marks], which holds [marker] of each page's text. *)
Fixpoint scan (cur : option invoice) (j : nat) (marks : list (option (pystr * pystr)))
  : list invoice :=
  match marks with
  | [] => option_list cur
  | Some (a, b) :: marks' => option_list cur ++ scan (Some (a, b, [j])) (S j) marks'
  | None :: marks' =>
      scan (match cur with Some (a, b, ps) => Some (a, b, ps ++ [j]) | None => None end)
           (S j) marks'
  end.

Definition invoices (doc : list page) : list invoice :=
  scan None 0 (map (fun pg => marker (page_text pg)) doc).

(** [i] is the invoice of the block [b]: opened by the marker page [b.1],
    with that page's captures, holding pages [b.1], ..., [b.2 - 1]. *)
Definition invoice_of_block (doc : list page) (b : nat * nat) (i : invoice) : Prop :=
  exists pg a g,
    doc !! b.1 = Some pg /\ marker (page_text pg) = Some (a, g) /\
    i = (a, g, seq b.1 (b.2 - b.1)).

(** The invoice under construction, extended up to page [nxt]. *)
Definition extended (cur : option invoice) (j nxt : nat) : list invoice :=
  match cur with
  | Some (a, g, ps) => [(a, g, ps ++ seq j (nxt - j))]
  | None => []
  end.

(** What one saved invoice looks like: file name, path, copied pages. *)
Definition invoice_filename (P : platform) (i : invoice) : pystr :=
  secure_filename P (i.1.1 ++ py "_" ++ i.1.2 ++ py ".pdf").

Definition invoice_path (P : platform) (i : invoice) : pystr :=
  path_join OUTPUT_FOLDER (invoice_filename P i).

Definition copy_pages (doc : list page) (ps : list nat) : list page :=
  omap (fun p => doc !! p) ps.

Definition invoice_output (P : platform) (doc : list page) (i : invoice)
  : pystr * list page :=
  (invoice_path P i, copy_pages doc (inv_pages i)).

Definition passing (P : platform) (gstin_filter : option pystr) (l : list invoice)
  : list invoice :=
  filter (fun i => filter_passes P gstin_filter (inv_gstin i) = true) l.

(** The file name ends in a dot and an extension without further dots which,
    lower-cased, is [pdf] or [zip]. *)
Definition has_allowed_extension (P : platform) (name : pystr) : Prop :=
  exists stem ext,
    name = stem ++ py "." ++ ext /\
    Forall (fun c => c <> 46) ext /\
    (lower P ext = py "pdf" \/ lower P ext = py "zip").

(** The disk after a sequence of saves. *)
Definition disk_after (d : gmap pystr blob) (outs : list (pystr * list page))
  : gmap pystr blob :=
  foldl (fun d o => <[o.1 := Pdf o.2]> d) d outs.

(** The pages last saved at path [p] among the saves [outs], if any. *)
Fixpoint last_saved (p : pystr) (outs : list (pystr * list page)) : option (list page) :=
  match outs with
  | [] => None
  | o :: outs' =>
      match last_saved p outs' with
      | Some pages => Some pages
      | None => if pystr_eqb o.1 p then Some o.2 else None
      end
  end.

(** The same platform with no call failing. *)
Definition without_faults (P : platform) : platform :=
  Platform (upper P) (lower P) (secure_filename P) (fitz_reads P) (in_root_path P)
    (fun _ => None).

(** The body of [upload_pdf]'s loop over the PDF members of a ZIP archive, as
    it stands in [upload_pdf_try]. *)
Definition zip_step (P : platform) (members : list (pystr * blob)) (gstin_filter : pystr)
    (pdf_file : pystr) (split_files : list pystr) : M (list pystr) :=
  let extracted_path := path_join UPLOAD_FOLDER (secure_filename P pdf_file) in
  let* source := zip_member P members pdf_file in
  write_file P extracted_path (Raw []) ;;;
  lib_call P ;;;
  write_file P extracted_path source ;;;
  let* more := split_invoices P extracted_path (Some gstin_filter) in
  os_remove P extracted_path ;;;
  ret (split_files ++ more).

(** [part] is what splitting the archive member [f] returns: the member is a
    PDF, and [part] names its invoices whose GSTIN passes the filter. *)
Definition member_names (P : platform) (members : list (pystr * blob))
    (gstin_filter : pystr) (f : pystr) (part : list pystr) : Prop :=
  exists doc invs,
    multidict_get f (rev members) = Some (Pdf doc) /\
    Forall2 (invoice_of_block doc) (blocks (marker_positions doc) (length doc)) invs /\
    part = map (invoice_filename P) (passing P (Some gstin_filter) invs).

(** The invoice the loop's variables hold open. *)
Definition open_invoice (st : locals) : option invoice :=
  match invoice_pages st, invoice_data st with
  | _ :: _, [a; b] => Some (a, b, invoice_pages st)
  | _, _ => None
  end.

(** The loop's invariant: an open invoice has its two captures, and its pages
    are pages of the document. *)
Definition good (doc : list page) (st : locals) : Prop :=
  (invoice_pages st = [] \/ exists a b, invoice_data st = [a; b]) /\
  Forall (fun p => (p < length doc)%nat) (invoice_pages st).

(** The invoice under construction after one more page. *)
Definition open_after (cur : option invoice) (j : nat) (m : option (pystr * pystr))
  : option invoice :=
  match m with
  | Some (a, b) => Some (a, b, [j])
  | None => match cur with Some (a, b, ps) => Some (a, b, ps ++ [j]) | None => None end
  end.

Definition closed_by (cur : option invoice) (m : option (pystr * pystr)) : list invoice :=
  match m with Some _ => option_list cur | None => [] end.

(** *** Specifications of computations *)

Section Logic.

Variable P : platform.

(** From [w] to [w'] exactly the PDFs [outs] were saved, in this order, and
    no source document was left open or closed. *)
Definition effect (w w' : world) (outs : list (pystr * list page)) : Prop :=
  saved w' = saved w ++ outs /\
  disk w' = disk_after (disk w) outs /\
  open_docs w' = open_docs w /\
  (clock w <= clock w')%nat.

(** No call made from [w] to [w'] failed. *)
Definition quiet (w w' : world) : Prop :=
  forall n, (clock w <= n < clock w')%nat -> fault P n = None.

(** The last call made from [w] to [w'] failed with [e], none before it did. *)
Definition failed (w w' : world) (e : exn) : Prop :=
  (clock w < clock w')%nat /\
  fault P (clock w' - 1) = Some e /\
  forall n, (clock w <= n < clock w' - 1)%nat -> fault P n = None.

(** [spec m outs post]: from any world, [m] either returns a value satisfying
    [post] having saved exactly [outs] with no call failing, or raises what
    the first failing call raised, having saved some first part of [outs]. *)
Definition spec {A} (m : M A) (outs : list (pystr * list page)) (post : A -> Prop)
  : Prop :=
  forall w,
    match m w with
    | (inr a, w') => effect w w' outs /\ quiet w w' /\ post a
    | (inl e, w') => (exists k, effect w w' (take k outs)) /\ failed w w' e
    end.

(** [refusing m post refused]: from any world, [m] saves nothing; it returns
    a value satisfying [post] with no call failing, or raises what the first
    failing call raised, or raises [SourceNotPdf] with no call failing, and
    then [refused] holds. *)
Definition refusing {A} (m : M A) (post : A -> Prop) (refused : Prop) : Prop :=
  forall w,
    match m w with
    | (inr a, w') => effect w w' [] /\ quiet w w' /\ post a
    | (inl e, w') =>
        effect w w' [] /\
        (failed w w' e \/ (quiet w w' /\ e = SourceNotPdf /\ refused))
    end.

End Logic.

(** ** Sample inputs *)

(** What MuPDF reads in these samples besides PDF files: content that begins
    like a PNG image is a document of one page without text. *)
Definition sample_reads (content : blob) : option document :=
  match content with
  | Raw (137 :: 80 :: 78 :: 71 :: _) => Some (Document false [Page [] 0])
  | _ => None
  end.

(** A platform on which nothing fails, with the ASCII case mappings, a
    [secure_filename] that leaves safe names alone, and the application run
    from its own directory. *)
Definition sample_platform : platform :=
  Platform ascii_upper ascii_lower (fun s => s) sample_reads (fun p => p) (fun _ => None).

Definition sample_page (text : string) (body : N) : page := Page (py text) body.

Definition sample_doc : list page :=
  [ sample_page "cover sheet" 0;
    sample_page "Document No. : A1 Recipient : GSTIN : g1" 1;
    sample_page "continued" 2;
    sample_page "Document No. : A2 Recipient : GSTIN : G2" 3 ].

Definition sample_world (doc : list page) : world :=
  World {[ py "uploads/in.pdf" := Pdf doc ]} [] [] 0.

Definition sample_plain_doc : list page :=
  [ sample_page "terms and conditions" 0;
    sample_page "Document No. : A1 but no recipient line" 1 ].

(** The same platform, except that its fourth call fails. *)
Definition sample_faulty_platform : platform :=
  Platform ascii_upper ascii_lower (fun s => s) sample_reads (fun p => p)
    (fun n => if (n =? 3)%nat then Some (LibraryError 5) else None).

(** Two invoices with the same captures, and one other between them. *)
Definition sample_repeat_doc : list page :=
  [ sample_page "Document No. : A1 Recipient : GSTIN : g1" 0;
    sample_page "first copy, page two" 1;
    sample_page "Document No. : A2 Recipient : GSTIN : G2" 2;
    sample_page "Document No. : A1 Recipient : GSTIN : g1" 3;
    sample_page "second copy, page two" 4 ].

Definition sample_upload (name : string) : request :=
  Request [(py "file", FileStorage (py name) (Pdf sample_doc))] [].

(** What a run returned, or nothing when it raised. *)
Definition returned {A} (r : (exn + list A) * world) : list A :=
  match r.1 with inr l => l | inl _ => [] end.

(** * Proofs *)

(** ** The program logic *)

Section LogicFacts.

Variable P : platform.

Lemma effect_refl w : effect w w [].
Proof. unfold effect. rewrite app_nil_r. simpl. auto. Qed.

Lemma disk_after_app d o1 o2 :
  disk_after (disk_after d o1) o2 = disk_after d (o1 ++ o2).
Proof. unfold disk_after. by rewrite foldl_app. Qed.

Lemma effect_trans w1 w2 w3 o1 o2 :
  effect w1 w2 o1 -> effect w2 w3 o2 -> effect w1 w3 (o1 ++ o2).
Proof.
  intros (Hs1 & Hd1 & Ho1 & Hc1) (Hs2 & Hd2 & Ho2 & Hc2). unfold effect.
  rewrite Hs2, Hs1, Hd2, Hd1, Ho2, Ho1, disk_after_app, app_assoc.
  repeat split; auto. lia.
Qed.

Lemma effect_clock w w' o : effect w w' o -> (clock w <= clock w')%nat.
Proof. by intros (_ & _ & _ & H). Qed.

Lemma quiet_trans w1 w2 w3 : quiet P w1 w2 -> quiet P w2 w3 -> quiet P w1 w3.
Proof.
  intros H1 H2 n Hn. destruct (decide (n < clock w2)%nat).
  - apply H1. lia.
  - apply H2. lia.
Qed.

Lemma quiet_failed w1 w2 w3 e :
  (clock w1 <= clock w2)%nat -> quiet P w1 w2 -> failed P w2 w3 e -> failed P w1 w3 e.
Proof.
  intros Hc H1 (Hlt & Hf & Hq). repeat split; [lia | done |].
  intros n Hn. destruct (decide (n < clock w2)%nat).
  - apply H1. lia.
  - apply Hq. lia.
Qed.

Lemma spec_ret {A} (a : A) : spec P (ret a) [] (fun x => x = a).
Proof.
  intros w. simpl. split; [apply effect_refl|]. split; [|done].
  intros n Hn. lia.
Qed.

Lemma spec_bind {A B} (m : M A) (k : A -> M B) o1 o2 (p1 : A -> Prop) (p2 : B -> Prop) :
  spec P m o1 p1 ->
  (forall a, p1 a -> spec P (k a) o2 p2) ->
  spec P (bind m k) (o1 ++ o2) p2.
Proof.
  intros Hm Hk w. unfold bind. specialize (Hm w).
  destruct (m w) as [[e|a] w1].
  - destruct Hm as [[n He] Hf]. split; [|done].
    exists (n `min` length o1)%nat.
    rewrite take_app_le by lia.
    replace (take (n `min` length o1) o1) with (take n o1); [done|].
    destruct (decide (n <= length o1)%nat).
    + by rewrite Nat.min_l.
    + rewrite Nat.min_r by lia. rewrite !take_ge; [done | lia | lia].
  - destruct Hm as (He1 & Hq1 & Hp1). specialize (Hk a Hp1 w1).
    destruct (k a w1) as [[e|b] w2].
    + destruct Hk as [[n He2] Hf]. split.
      * exists (length o1 + n)%nat. rewrite take_app_add'; [|done].
        exact (effect_trans _ _ _ _ _ He1 He2).
      * exact (quiet_failed _ _ _ _ (effect_clock _ _ _ He1) Hq1 Hf).
    + destruct Hk as (He2 & Hq2 & Hp2). split; [exact (effect_trans _ _ _ _ _ He1 He2)|].
      split; [exact (quiet_trans _ _ _ Hq1 Hq2) | done].
Qed.

(** [spec] only looks at what the computation does to each world. *)
Lemma spec_ext {A} (m m' : M A) o o' (p p' : A -> Prop) :
  (forall w, m w = m' w) -> o = o' -> (forall a, p a -> p' a) ->
  spec P m o p -> spec P m' o' p'.
Proof.
  intros Hm -> Hp H w. specialize (H w). rewrite <- Hm.
  destruct (m w) as [[e|a] w']; [done|]. destruct H as (? & ? & ?). auto.
Qed.

Lemma spec_post {A} (m : M A) o (p p' : A -> Prop) :
  (forall a, p a -> p' a) -> spec P m o p -> spec P m o p'.
Proof. intros. eapply spec_ext; eauto. Qed.

Lemma spec_lib_call : spec P (lib_call P) [] (fun _ => True).
Proof.
  intros w. unfold lib_call. destruct (fault P (clock w)) eqn:Hf.
  - split.
    + exists 0%nat. unfold effect. simpl. rewrite app_nil_r. auto with lia.
    + unfold failed. simpl. rewrite Nat.sub_0_r.
      split; [lia|]. split; [done|]. intros; lia.
  - split; [|split; [|done]].
    + unfold effect. simpl. rewrite app_nil_r. auto with lia.
    + intros n Hn. simpl in Hn. by replace n with (clock w) by lia.
Qed.

Lemma spec_index {A} (xs : list A) i x :
  xs !! i = Some x -> spec P (index xs i) [] (fun y => y = x).
Proof. intros H. unfold index. rewrite H. apply spec_ret. Qed.

Lemma spec_refusing {A} (m : M A) (p : A -> Prop) (refused : Prop) :
  spec P m [] p -> refusing P m p refused.
Proof.
  intros H w. specialize (H w). destruct (m w) as [[e|a] w']; [|done].
  destruct H as [[k He] Hf]. rewrite take_nil in He. auto.
Qed.

Lemma refusing_bind {A B} (m : M A) (k : A -> M B) (p1 : A -> Prop) (p2 : B -> Prop)
    (b1 b2 b : Prop) :
  refusing P m p1 b1 ->
  (forall a, p1 a -> refusing P (k a) p2 b2) ->
  (b1 -> b) -> (b2 -> b) ->
  refusing P (bind m k) p2 b.
Proof.
  intros Hm Hk Hb1 Hb2 w. unfold bind. specialize (Hm w).
  destruct (m w) as [[e|a] w1].
  - destruct Hm as [He [Hf|(Hq & -> & Hr)]]; auto 6.
  - destruct Hm as (He1 & Hq1 & Hp1). specialize (Hk a Hp1 w1).
    pose proof (effect_clock _ _ _ He1) as Hc1.
    destruct (k a w1) as [[e|b0] w2].
    + destruct Hk as [He2 Hout]. split; [exact (effect_trans _ _ _ _ _ He1 He2)|].
      destruct Hout as [Hf|(Hq2 & -> & Hr)].
      * left. exact (quiet_failed _ _ _ _ Hc1 Hq1 Hf).
      * right. split; [exact (quiet_trans _ _ _ Hq1 Hq2) | auto].
    + destruct Hk as (He2 & Hq2 & Hp2). split; [exact (effect_trans _ _ _ _ _ He1 He2)|].
      split; [exact (quiet_trans _ _ _ Hq1 Hq2) | done].
Qed.

Lemma refusing_post {A} (m : M A) (p p' : A -> Prop) (b b' : Prop) :
  (forall a, p a -> p' a) -> (b -> b') -> refusing P m p b -> refusing P m p' b'.
Proof.
  intros Hp Hb H w. specialize (H w). destruct (m w) as [[e|a] w'].
  - destruct H as [He [Hf|(Hq & -> & Hr)]]; auto 6.
  - destruct H as (? & ? & ?). auto.
Qed.

Lemma refusing_ext {A} (m m' : M A) (p : A -> Prop) (b : Prop) :
  (forall w, m w = m' w) -> refusing P m p b -> refusing P m' p b.
Proof. intros Hm H w. specialize (H w). by rewrite <- Hm. Qed.

Lemma refusing_bind_spec {A B} (m : M A) (k : A -> M B) (p1 : A -> Prop) (p2 : B -> Prop)
    (b : Prop) :
  spec P m [] p1 ->
  (forall a, p1 a -> refusing P (k a) p2 b) ->
  refusing P (bind m k) p2 b.
Proof.
  intros Hm Hk. apply (refusing_bind m k p1 p2 False b b); [|done..].
  by apply spec_refusing.
Qed.

Lemma refusing_bind_l {A B} (m : M A) (k : A -> M B) (p2 : B -> Prop) (b : Prop) :
  refusing P m (fun _ => False) b -> refusing P (bind m k) p2 b.
Proof. intros Hm. by apply (refusing_bind m k (fun _ => False) p2 b b b). Qed.

Lemma bind_assoc {A B C} (m : M A) (k : A -> M B) (h : B -> M C) w :
  bind (bind m k) h w = bind m (fun a => bind (k a) h) w.
Proof. unfold bind. by destruct (m w) as [[?|?] ?]. Qed.

Lemma bind_ret_r {A} (m : M A) w : bind m ret w = m w.
Proof. unfold bind, ret. by destruct (m w) as [[?|?] ?]. Qed.

End LogicFacts.

(** ** What each part of [split_invoices] does *)

Section SplitFacts.

Variable P : platform.
Variable doc : list page.
Variable gstin_filter : option pystr.

Lemma spec_bind' {A B} (m : M A) (k : A -> M B) o o1 o2 (p1 : A -> Prop) (p2 : B -> Prop) :
  spec P m o1 p1 ->
  (forall a, p1 a -> spec P (k a) o2 p2) ->
  o = o1 ++ o2 ->
  spec P (bind m k) o p2.
Proof. intros ? ? ->. by eapply spec_bind. Qed.

Lemma spec_insert_pdf p pg acc :
  doc !! p = Some pg ->
  spec P (insert_pdf P true doc p acc) [] (fun r => r = acc ++ [pg]).
Proof.
  intros Hp. unfold insert_pdf.
  eapply spec_bind'; [apply spec_lib_call | | done]. intros _ _.
  eapply spec_bind'; [by apply spec_index | | done]. intros ? ->.
  apply spec_ret.
Qed.

Lemma spec_copy ps : forall acc,
  Forall (fun p => (p < length doc)%nat) ps ->
  spec P (for_each ps (insert_pdf P true doc) acc) [] (fun r => r = acc ++ copy_pages doc ps).
Proof.
  induction ps as [|p ps IH]; intros acc Hps; simpl.
  - eapply spec_post; [|apply spec_ret]. intros ? ->. by rewrite app_nil_r.
  - inversion Hps as [|? ? Hp Hps']; subst.
    destruct (lookup_lt_is_Some_2 doc p Hp) as [pg Hpg].
    eapply spec_bind'; [by apply spec_insert_pdf | | done]. intros ? ->.
    eapply spec_post; [|by apply IH]. intros ? ->.
    unfold copy_pages. simpl. rewrite Hpg. simpl. by rewrite <- app_assoc.
Qed.

Lemma spec_pdf_save pdf path : spec P (pdf_save P pdf path) [(path, pdf)] (fun _ => True).
Proof.
  intros w. unfold pdf_save, bind. pose proof (spec_lib_call P w) as H.
  destruct (lib_call P w) as [[e|[]] w1].
  - destruct H as [[k He] Hf]. split; [|done]. exists 0%nat. by rewrite take_nil in He.
  - destruct H as ((Hs & Hd & Ho & Hc) & Hq & _). simpl in *.
    rewrite app_nil_r in Hs. unfold effect, quiet. simpl. rewrite Hs, Hd, Ho. auto.
Qed.

Lemma spec_fitz_new : spec P (fitz_new P) [] (fun r => r = []).
Proof.
  unfold fitz_new. eapply spec_bind'; [apply spec_lib_call | | done].
  intros _ _. apply spec_ret.
Qed.

Lemma passing_one i :
  passing P gstin_filter [i] = if filter_passes P gstin_filter (inv_gstin i) then [i] else [].
Proof.
  unfold passing. simpl. rewrite filter_cons, filter_nil.
  destruct (filter_passes P gstin_filter (inv_gstin i)); by simplify_option_eq.
Qed.

Lemma spec_save_invoice st i :
  open_invoice st = Some i -> good doc st ->
  spec P (save_invoice P true doc gstin_filter st)
    (map (invoice_output P doc) (passing P gstin_filter [i]))
    (fun st' =>
       st' = Locals (invoice_pages st) (invoice_data st)
               (split_files st ++ map (invoice_filename P) (passing P gstin_filter [i]))).
Proof.
  intros Hi [_ Hr]. unfold open_invoice in Hi.
  destruct st as [ps data fs]. simpl in *.
  destruct ps as [|p0 ps]; [done|].
  destruct data as [|a [|b [|? ?]]]; try done. injection Hi as <-.
  rewrite passing_one. unfold save_invoice, inv_gstin.
  cbn [invoice_pages invoice_data split_files fst snd].
  eapply spec_bind'; [by apply (spec_index P [a; b] 1 b) | | done]. intros ? ->.
  destruct (filter_passes P gstin_filter b).
  - eapply spec_bind'; [by apply (spec_index P [a; b] 0 a) | | done]. intros ? ->.
    eapply spec_bind'; [by apply (spec_index P [a; b] 1 b) | | done]. intros ? ->.
    eapply spec_bind'; [apply spec_fitz_new | | done]. intros ? ->.
    eapply spec_bind'; [by apply spec_copy | | done]. intros ? ->.
    eapply spec_bind'; [apply spec_pdf_save | | done]. intros _ _.
    apply spec_ret.
  - eapply spec_post; [|apply spec_ret]. intros ? ->. simpl. by rewrite app_nil_r.
Qed.

(** [if invoice_pages: save the open invoice] *)
Lemma spec_flush st :
  good doc st ->
  spec P (if nonempty (invoice_pages st)
          then save_invoice P true doc gstin_filter st else ret st)
    (map (invoice_output P doc) (passing P gstin_filter (option_list (open_invoice st))))
    (fun st' =>
       st' = Locals (invoice_pages st) (invoice_data st)
               (split_files st
                ++ map (invoice_filename P)
                     (passing P gstin_filter (option_list (open_invoice st))))).
Proof.
  intros Hg. destruct (open_invoice st) as [i|] eqn:Hi.
  - assert (nonempty (invoice_pages st) = true) as ->.
    { unfold open_invoice in Hi. by destruct (invoice_pages st). }
    by apply spec_save_invoice.
  - assert (invoice_pages st = []) as Hnil.
    { destruct Hg as [[?|(a & b & Hab)] _]; [done|].
      unfold open_invoice in Hi. rewrite Hab in Hi. by destruct (invoice_pages st). }
    rewrite Hnil. simpl. eapply spec_post; [|apply spec_ret]. intros ? ->.
    destruct st; simpl in *. rewrite app_nil_r. by subst.
Qed.

Lemma spec_get_text j pg :
  doc !! j = Some pg -> spec P (get_text P doc j) [] (fun t => t = page_text pg).
Proof.
  intros Hp. unfold get_text.
  eapply spec_bind'; [apply spec_lib_call | | done]. intros _ _.
  eapply spec_bind'; [by apply spec_index | | done]. intros ? ->.
  apply spec_ret.
Qed.

Lemma spec_append j st :
  (j < length doc)%nat -> good doc st ->
  spec P (if nonempty (invoice_pages st)
          then ret (Locals (invoice_pages st ++ [j]) (invoice_data st) (split_files st))
          else ret st)
    []
    (fun st' =>
       good doc st' /\
       open_invoice st' = open_after (open_invoice st) j None /\
       split_files st' = split_files st ++ []).
Proof.
  intros Hj [Hd Hr]. destruct st as [ps data fs]. simpl in *.
  destruct ps as [|p0 ps]; simpl.
  - eapply spec_post; [|apply spec_ret]. intros ? ->. simpl.
    rewrite app_nil_r. repeat split; auto.
  - eapply spec_post; [|apply spec_ret]. intros ? ->. simpl.
    destruct Hd as [?|(a & b & ->)]; [done|]. rewrite app_nil_r.
    repeat split; eauto.
    rewrite app_comm_cons. apply Forall_app. split; [done|]. by repeat constructor.
Qed.

Lemma spec_process_page j pg st :
  doc !! j = Some pg -> good doc st ->
  spec P (process_page P true doc gstin_filter j st)
    (map (invoice_output P doc)
       (passing P gstin_filter (closed_by (open_invoice st) (marker (page_text pg)))))
    (fun st' =>
       good doc st' /\
       open_invoice st' = open_after (open_invoice st) j (marker (page_text pg)) /\
       split_files st' =
         split_files st
         ++ map (invoice_filename P)
              (passing P gstin_filter
                 (closed_by (open_invoice st) (marker (page_text pg))))).
Proof.
  intros Hp Hg. unfold process_page.
  assert (j < length doc)%nat as Hj by (by eapply lookup_lt_Some).
  eapply spec_bind'; [by apply spec_get_text | | done]. intros ? ->.
  unfold marker.
  destruct (Re.search doc_pattern (page_text pg)) as [dm|],
           (Re.search gst_pattern (page_text pg)) as [gm|]; simpl.
  - eapply spec_bind'; [by apply spec_flush | | by rewrite app_nil_r].
    intros ? ->. eapply spec_post; [|apply spec_ret]. intros ? ->. simpl.
    repeat split; eauto. by repeat constructor.
  - by apply spec_append.
  - by apply spec_append.
  - by apply spec_append.
Qed.

(** The loop from page [length pre] on, followed by "Process the last
    invoice". *)
Lemma spec_loop rest : forall pre st,
  doc = pre ++ rest -> good doc st ->
  spec P
    (let* st1 := for_each (seq (length pre) (length rest))
                          (process_page P true doc gstin_filter) st in
     if nonempty (invoice_pages st1)
     then save_invoice P true doc gstin_filter st1 else ret st1)
    (map (invoice_output P doc)
       (passing P gstin_filter
          (scan (open_invoice st) (length pre)
             (map (fun pg => marker (page_text pg)) rest))))
    (fun st' =>
       split_files st' =
         split_files st
         ++ map (invoice_filename P)
              (passing P gstin_filter
                 (scan (open_invoice st) (length pre)
                    (map (fun pg => marker (page_text pg)) rest)))).
Proof.
  induction rest as [|pg rest IH]; intros pre st Hdoc Hg.
  - cbn [length seq for_each map scan].
    eapply spec_bind'; [apply spec_ret | | done]. intros ? ->.
    eapply spec_post; [|by apply spec_flush]. by intros ? ->.
  - cbn [length seq for_each map].
    assert (doc !! length pre = Some pg) as Hpg.
    { rewrite Hdoc. by rewrite list_lookup_middle. }
    eapply spec_ext;
      [intros w; symmetry; apply bind_assoc | reflexivity | intros a Ha; exact Ha |].
    set (m := marker (page_text pg)).
    assert (forall cur, scan cur (length pre) (m :: map (fun pg => marker (page_text pg)) rest)
              = closed_by cur m
                ++ scan (open_after cur (length pre) m) (S (length pre))
                        (map (fun pg => marker (page_text pg)) rest)) as Hscan.
    { intros cur. simpl. destruct m as [[a b]|]; [done|]. by destruct cur as [[[? ?] ?]|]. }
    rewrite Hscan. unfold passing. rewrite filter_app, !map_app. fold (passing P gstin_filter).
    eapply spec_bind'; [by eapply spec_process_page | | reflexivity].
    intros st1 (Hg1 & Ho1 & Hf1). fold m in Ho1, Hf1.
    specialize (IH (pre ++ [pg]) st1).
    rewrite length_app, Nat.add_1_r in IH. rewrite <- Ho1.
    eapply spec_post; [|apply IH; [by rewrite <- app_assoc | done]].
    intros st' ->. rewrite Hf1. by rewrite <- app_assoc.
Qed.

Lemma remove_first_head path l : remove_first path (path :: l) = l.
Proof. simpl. unfold pystr_eqb. by rewrite bool_decide_eq_true_2. Qed.

(** The whole of [split_invoices] on a path whose file [fitz.open] reads as a
    PDF document. *)
Lemma split_invoices_read content path w r w' :
  disk w !! path = Some content ->
  fitz_view P content = Some (Document true doc) ->
  split_invoices P path gstin_filter w = (r, w') ->
  open_docs w' = open_docs w /\
  (clock w <= clock w')%nat /\
  match r with
  | inr files =>
      files = map (invoice_filename P) (passing P gstin_filter (invoices doc)) /\
      saved w' =
        saved w ++ map (invoice_output P doc) (passing P gstin_filter (invoices doc)) /\
      disk w' =
        disk_after (disk w)
          (map (invoice_output P doc) (passing P gstin_filter (invoices doc))) /\
      quiet P w w'
  | inl e =>
      failed P w w' e /\
      exists k,
        saved w' =
          saved w
          ++ take k (map (invoice_output P doc) (passing P gstin_filter (invoices doc))) /\
        disk w' =
          disk_after (disk w)
            (take k (map (invoice_output P doc) (passing P gstin_filter (invoices doc))))
  end.
Proof.
  intros Hdisk Hview. unfold split_invoices, fitz_open.
  unfold bind at 1. unfold bind at 1.
  pose proof (spec_lib_call P w) as Hc.
  destruct (lib_call P w) as [[e|[]] w1].
  { intros [= <- <-]. destruct Hc as [[k (Hs & Hd & Ho & Hk)] Hf].
    rewrite take_nil in Hs, Hd. rewrite app_nil_r in Hs.
    do 3 (split; [done|]). exists 0%nat. by rewrite take_0, app_nil_r. }
  destruct Hc as ((Hs1 & Hd1 & Ho1 & Hc1) & Hq1 & _).
  rewrite app_nil_r in Hs1. simpl in Hd1.
  assert (disk w1 !! path = Some content) as -> by (by rewrite Hd1).
  rewrite Hview. cbn [is_pdf doc_pages].
  set (w2 := World (disk w1) (saved w1) (path :: open_docs w1) (clock w1)).
  assert (good doc (Locals [] [] [])) as Hg0 by (split; [by left | constructor]).
  pose proof (spec_loop doc [] (Locals [] [] []) eq_refl Hg0 w2) as Hl.
  cbn [length open_invoice invoice_pages split_files app] in Hl.
  fold (invoices doc) in Hl.
  unfold bind at 1. unfold try_finally, try_except.
  match type of Hl with context [let (_, _) := ?c in _] =>
    destruct c as [[e|st] w3] end.
  - unfold raise, fitz_close.
    destruct Hl as [[k (Hs & Hd & Ho & Hk)] (Hf1 & Hf2 & Hf3)]. simpl in *.
    intros [= <- <-]. simpl. rewrite Ho, remove_first_head.
    split; [done|]. split; [lia|]. split.
    + unfold failed. simpl. split; [lia|]. split; [done|]. intros n Hn.
      destruct (decide (n < clock w1)%nat).
      * apply Hq1. lia.
      * apply Hf3. lia.
    + exists k. by rewrite Hs, Hd, Hs1, Hd1.
  - unfold fitz_close, ret.
    destruct Hl as ((Hs & Hd & Ho & Hk) & Hq & Hp). simpl in *.
    intros [= <- <-]. simpl. rewrite Ho, remove_first_head.
    split; [done|]. split; [lia|]. rewrite Hp, Hs, Hd, Hs1, Hd1.
    do 3 (split; [done|]).
    intros n Hn. simpl in Hn. destruct (decide (n < clock w1)%nat).
    + apply Hq1. lia.
    + apply Hq. simpl. lia.
Qed.

(** The same on a path that holds a PDF file. *)
Lemma split_invoices_spec path w r w' :
  disk w !! path = Some (Pdf doc) ->
  split_invoices P path gstin_filter w = (r, w') ->
  open_docs w' = open_docs w /\
  (clock w <= clock w')%nat /\
  match r with
  | inr files =>
      files = map (invoice_filename P) (passing P gstin_filter (invoices doc)) /\
      saved w' =
        saved w ++ map (invoice_output P doc) (passing P gstin_filter (invoices doc)) /\
      disk w' =
        disk_after (disk w)
          (map (invoice_output P doc) (passing P gstin_filter (invoices doc))) /\
      quiet P w w'
  | inl e =>
      failed P w w' e /\
      exists k,
        saved w' =
          saved w
          ++ take k (map (invoice_output P doc) (passing P gstin_filter (invoices doc))) /\
        disk w' =
          disk_after (disk w)
            (take k (map (invoice_output P doc) (passing P gstin_filter (invoices doc))))
  end.
Proof. intros Hdisk. by apply (split_invoices_read (Pdf doc)). Qed.

(** *** A source that is no PDF *)

Lemma refusing_insert_pdf p acc :
  refusing P (insert_pdf P false doc p acc) (fun _ => False) True.
Proof.
  intros w. unfold insert_pdf, bind. pose proof (spec_lib_call P w) as H.
  destruct (lib_call P w) as [[e|[]] w1].
  - destruct H as [[k He] Hf]. rewrite take_nil in He. auto.
  - destruct H as (He & Hq & _). unfold raise. auto 6.
Qed.

Lemma refusing_copy p ps acc :
  refusing P (for_each (p :: ps) (insert_pdf P false doc) acc) (fun _ => False) True.
Proof. cbn [for_each]. apply refusing_bind_l, refusing_insert_pdf. Qed.

Lemma refusing_save_invoice st i :
  open_invoice st = Some i ->
  refusing P (save_invoice P false doc gstin_filter st)
    (fun st' => st' = st /\ passing P gstin_filter [i] = [])
    (passing P gstin_filter [i] <> []).
Proof.
  intros Hi. unfold open_invoice in Hi.
  destruct st as [ps data fs]. simpl in *.
  destruct ps as [|p0 ps]; [done|].
  destruct data as [|a [|b [|? ?]]]; try done. injection Hi as <-.
  rewrite passing_one. unfold save_invoice, inv_gstin.
  cbn [invoice_pages invoice_data split_files fst snd].
  eapply refusing_bind_spec; [by apply (spec_index P [a; b] 1 b)|]. intros ? ->.
  destruct (filter_passes P gstin_filter b).
  - eapply refusing_bind_spec; [by apply (spec_index P [a; b] 0 a)|]. intros ? ->.
    eapply refusing_bind_spec; [by apply (spec_index P [a; b] 1 b)|]. intros ? ->.
    eapply refusing_bind_spec; [apply spec_fitz_new|]. intros ? ->.
    apply refusing_bind_l.
    eapply refusing_post; [| |apply refusing_copy]; done.
  - apply spec_refusing. eapply spec_post; [|apply spec_ret]. by intros ? ->.
Qed.

Lemma refusing_flush st :
  good doc st ->
  refusing P (if nonempty (invoice_pages st)
              then save_invoice P false doc gstin_filter st else ret st)
    (fun st' => st' = st /\ passing P gstin_filter (option_list (open_invoice st)) = [])
    (passing P gstin_filter (option_list (open_invoice st)) <> []).
Proof.
  intros Hg. destruct (open_invoice st) as [i|] eqn:Hi.
  - assert (nonempty (invoice_pages st) = true) as ->.
    { unfold open_invoice in Hi. by destruct (invoice_pages st). }
    by apply refusing_save_invoice.
  - assert (invoice_pages st = []) as Hnil.
    { destruct Hg as [[?|(a & b & Hab)] _]; [done|].
      unfold open_invoice in Hi. rewrite Hab in Hi. by destruct (invoice_pages st). }
    rewrite Hnil. simpl. apply spec_refusing.
    eapply spec_post; [|apply spec_ret]. by intros ? ->.
Qed.

Lemma refusing_process_page j pg st :
  doc !! j = Some pg -> good doc st ->
  refusing P (process_page P false doc gstin_filter j st)
    (fun st' =>
       good doc st' /\
       open_invoice st' = open_after (open_invoice st) j (marker (page_text pg)) /\
       split_files st' = split_files st /\
       passing P gstin_filter (closed_by (open_invoice st) (marker (page_text pg))) = [])
    (passing P gstin_filter (closed_by (open_invoice st) (marker (page_text pg))) <> []).
Proof.
  intros Hp Hg. unfold process_page.
  assert (j < length doc)%nat as Hj by (by eapply lookup_lt_Some).
  eapply refusing_bind_spec; [by apply spec_get_text|]. intros ? ->.
  assert (refusing P
            (if nonempty (invoice_pages st)
             then ret (Locals (invoice_pages st ++ [j]) (invoice_data st) (split_files st))
             else ret st)
            (fun st' =>
               good doc st' /\
               open_invoice st' = open_after (open_invoice st) j None /\
               split_files st' = split_files st /\
               passing P gstin_filter [] = [])
            (passing P gstin_filter [] <> [])) as Happend.
  { apply spec_refusing. eapply spec_post; [|by apply spec_append].
    intros st' (? & ? & Hf). rewrite app_nil_r in Hf. done. }
  unfold marker.
  destruct (Re.search doc_pattern (page_text pg)) as [dm|],
           (Re.search gst_pattern (page_text pg)) as [gm|]; simpl; try exact Happend.
  eapply refusing_bind; [by apply refusing_flush | | intros H; exact H | done].
  intros ? [-> Hnone]. apply spec_refusing. eapply spec_post; [|apply spec_ret].
  intros ? ->. simpl. repeat split; eauto. by repeat constructor.
Qed.

Lemma refusing_loop rest : forall pre st,
  doc = pre ++ rest -> good doc st ->
  refusing P
    (let* st1 := for_each (seq (length pre) (length rest))
                          (process_page P false doc gstin_filter) st in
     if nonempty (invoice_pages st1)
     then save_invoice P false doc gstin_filter st1 else ret st1)
    (fun st' =>
       split_files st' = split_files st /\
       passing P gstin_filter
         (scan (open_invoice st) (length pre)
            (map (fun pg => marker (page_text pg)) rest)) = [])
    (passing P gstin_filter
       (scan (open_invoice st) (length pre)
          (map (fun pg => marker (page_text pg)) rest)) <> []).
Proof.
  induction rest as [|pg rest IH]; intros pre st Hdoc Hg.
  - cbn [length seq for_each map scan].
    eapply refusing_bind_spec; [apply spec_ret|]. intros ? ->.
    eapply refusing_post; [| |by apply refusing_flush]; [by intros ? [-> ?] | done].
  - cbn [length seq for_each map].
    assert (doc !! length pre = Some pg) as Hpg.
    { rewrite Hdoc. by rewrite list_lookup_middle. }
    eapply refusing_ext; [intros w; symmetry; apply bind_assoc|].
    set (m := marker (page_text pg)).
    assert (forall cur, scan cur (length pre) (m :: map (fun pg => marker (page_text pg)) rest)
              = closed_by cur m
                ++ scan (open_after cur (length pre) m) (S (length pre))
                        (map (fun pg => marker (page_text pg)) rest)) as Hscan.
    { intros cur. simpl. destruct m as [[a b]|]; [done|]. by destruct cur as [[[? ?] ?]|]. }
    assert (forall l1 l2, passing P gstin_filter (l1 ++ l2)
              = passing P gstin_filter l1 ++ passing P gstin_filter l2) as Happ.
    { intros l1 l2. unfold passing. by rewrite filter_app. }
    rewrite Hscan, Happ.
    eapply (refusing_bind P _ _ _ _ _
              (passing P gstin_filter
                 (scan (open_after (open_invoice st) (length pre) m) (S (length pre))
                    (map (fun pg => marker (page_text pg)) rest)) <> []));
      [by eapply refusing_process_page | | |].
    + intros st1 (Hg1 & Ho1 & Hf1 & Hc1). fold m in Ho1, Hc1.
      specialize (IH (pre ++ [pg]) st1).
      rewrite length_app, Nat.add_1_r in IH. rewrite <- Ho1.
      eapply refusing_post; [| |apply IH; [by rewrite <- app_assoc | done]].
      * intros st' [-> Hn]. by rewrite Hc1, Hn, Hf1.
      * done.
    + fold m. intros H1 [H2 _]%app_eq_nil. done.
    + intros H1 [_ H2]%app_eq_nil. done.
Qed.

(** The whole of [split_invoices] on a path whose file [fitz.open] reads as a
    document that is no PDF: nothing is saved; the run returns the empty list
    when no invoice passes the filter, and is refused by [insert_pdf]
    otherwise. *)
Lemma split_invoices_foreign content path w r w' :
  disk w !! path = Some content ->
  fitz_view P content = Some (Document false doc) ->
  split_invoices P path gstin_filter w = (r, w') ->
  open_docs w' = open_docs w /\
  (clock w <= clock w')%nat /\
  saved w' = saved w /\ disk w' = disk w /\
  match r with
  | inr files =>
      files = [] /\ passing P gstin_filter (invoices doc) = [] /\ quiet P w w'
  | inl e =>
      failed P w w' e \/
      (quiet P w w' /\ e = SourceNotPdf /\ passing P gstin_filter (invoices doc) <> [])
  end.
Proof.
  intros Hdisk Hview. unfold split_invoices, fitz_open.
  unfold bind at 1. unfold bind at 1.
  pose proof (spec_lib_call P w) as Hc.
  destruct (lib_call P w) as [[e|[]] w1].
  { intros [= <- <-]. destruct Hc as [[k (Hs & Hd & Ho & Hk)] Hf].
    rewrite take_nil in Hs, Hd. rewrite app_nil_r in Hs. auto 6. }
  destruct Hc as ((Hs1 & Hd1 & Ho1 & Hc1) & Hq1 & _).
  rewrite app_nil_r in Hs1. simpl in Hd1.
  assert (disk w1 !! path = Some content) as -> by (by rewrite Hd1).
  rewrite Hview. cbn [is_pdf doc_pages].
  set (w2 := World (disk w1) (saved w1) (path :: open_docs w1) (clock w1)).
  assert (good doc (Locals [] [] [])) as Hg0 by (split; [by left | constructor]).
  pose proof (refusing_loop doc [] (Locals [] [] []) eq_refl Hg0 w2) as Hl.
  cbn [length open_invoice invoice_pages split_files app] in Hl.
  fold (invoices doc) in Hl.
  unfold bind at 1. unfold try_finally, try_except.
  match type of Hl with context [let (_, _) := ?c in _] =>
    destruct c as [[e|st] w3] end.
  - unfold raise, fitz_close.
    destruct Hl as [(Hs & Hd & Ho & Hk) Hout]. simpl in *.
    rewrite app_nil_r in Hs.
    intros [= <- <-]. simpl. rewrite Ho, remove_first_head.
    split; [done|]. split; [lia|]. split; [congruence|]. split; [congruence|].
    destruct Hout as [(Hf1 & Hf2 & Hf3)|(Hq & -> & Hne)]; simpl in *.
    + left. unfold failed. simpl. split; [lia|]. split; [done|]. intros n Hn.
      destruct (decide (n < clock w1)%nat).
      * apply Hq1. lia.
      * apply Hf3. lia.
    + right. split; [|done]. intros n Hn. simpl in Hn.
      destruct (decide (n < clock w1)%nat).
      * apply Hq1. lia.
      * apply Hq. simpl. lia.
  - unfold fitz_close, ret.
    destruct Hl as ((Hs & Hd & Ho & Hk) & Hq & Hp & Hnone). simpl in *.
    rewrite app_nil_r in Hs.
    intros [= <- <-]. simpl. rewrite Ho, remove_first_head.
    split; [done|]. split; [lia|]. split; [congruence|]. split; [congruence|].
    do 2 (split; [done|]).
    intros n Hn. simpl in Hn. destruct (decide (n < clock w1)%nat).
    + apply Hq1. lia.
    + apply Hq. simpl. lia.
Qed.

(** [split_invoices] on a path at which [fitz.open] finds no document. *)
Lemma split_invoices_unread path w r w' :
  (forall content, disk w !! path = Some content -> fitz_view P content = None) ->
  split_invoices P path gstin_filter w = (r, w') ->
  open_docs w' = open_docs w /\ saved w' = saved w /\ disk w' = disk w /\
  exists e,
    r = inl e /\
    (failed P w w' e \/
     (quiet P w w' /\ clock w' = S (clock w) /\
      (e = FileDataError \/ e = FileNotFoundError))).
Proof.
  intros Hno. unfold split_invoices, fitz_open.
  unfold bind at 1. unfold bind at 1.
  pose proof (spec_lib_call P w) as Hc. unfold lib_call in *.
  destruct (fault P (clock w)) as [e|] eqn:Hf.
  { intros [= <- <-]. destruct Hc as [[k (Hs & Hd & Ho & Hk)] Hfl]. simpl.
    repeat split; eauto. }
  destruct Hc as (_ & Hq & _). simpl.
  destruct (disk w !! path) as [content|].
  - rewrite (Hno content eq_refl). intros [= <- <-]. simpl. repeat split; eauto 8.
  - intros [= <- <-]. simpl. repeat split; eauto 8.
Qed.

End SplitFacts.

(** ** The two patterns *)

Section RegexFacts.

Import Re.

Lemma greedy_sound {R} a (k : pystr -> option R) s run r :
  greedy a k s = Some (run, r) ->
  exists s',
    s = run ++ s' /\ run <> [] /\ Forall (fun c => accepts a c = true) run /\
    k s' = Some r /\
    (forall c s'', s' = c :: s'' -> accepts a c = true -> greedy a k s' = None).
Proof.
  revert run. induction s as [|c s IH]; intros run; simpl; [done|].
  destruct (accepts a c) eqn:Hc; [|done].
  destruct (greedy a k s) as [[run' r']|] eqn:Hg.
  - intros [= <- <-]. destruct (IH run' eq_refl) as (s' & -> & Hne & Hall & Hk & Hmax).
    exists s'. repeat split; auto.
  - destruct (k s) as [r'|] eqn:Hk; [|done]. intros [= <- <-].
    exists s. repeat split; auto.
Qed.

Lemma greedy_maximal {R} a (k : pystr -> option R) run s' r :
  run <> [] -> Forall (fun c => accepts a c = true) run ->
  (forall c s'', s' = c :: s'' -> accepts a c = false) ->
  k s' = Some r ->
  greedy a k (run ++ s') = Some (run, r).
Proof.
  intros Hne Hall Hstop Hk.
  assert (greedy a k s' = None) as Hs'.
  { destruct s' as [|c s'']; [done|]. simpl. by rewrite (Hstop c s'' eq_refl). }
  induction run as [|c run IH]; [done|].
  inversion Hall as [|? ? Hc Hall']; subst. simpl. rewrite Hc.
  destruct run as [|c' run].
  - simpl. by rewrite Hs', Hk.
  - by rewrite IH.
Qed.

Lemma match_at_lits l r s gs :
  match_at (map (fun c => One (Lit c)) l ++ r) s = Some gs <->
  exists s', s = l ++ s' /\ match_at r s' = Some gs.
Proof.
  revert s. induction l as [|c l IH]; intros s; simpl.
  - split; [eauto|]. by intros (s' & -> & ?).
  - destruct s as [|d s].
    + split; [done|]. by intros (s' & ? & _).
    + destruct (d =? c) eqn:Hd.
      * apply N.eqb_eq in Hd as ->. rewrite IH. split.
        -- intros (s' & -> & ?). eauto.
        -- intros (s' & [= ->] & ?). eauto.
      * split; [done|]. intros (s' & [= -> _] & _). by rewrite N.eqb_refl in Hd.
Qed.

Lemma match_at_dot r s gs :
  match_at (One Dot :: r) s = Some gs <->
  exists c s', s = c :: s' /\ c <> 10 /\ match_at r s' = Some gs.
Proof.
  simpl. destruct s as [|c s].
  - split; [done|]. by intros (? & ? & ? & _).
  - destruct (c =? 10) eqn:Hc; simpl.
    + apply N.eqb_eq in Hc as ->. split; [done|]. by intros (? & ? & [= <- _] & ? & _).
    + apply N.eqb_neq in Hc. split; [eauto|]. by intros (? & ? & [= <- <-] & _ & ?).
Qed.

Lemma match_at_plus_ws r s gs :
  (forall c s', is_space c = true -> match_at r (c :: s') = None) ->
  match_at (Plus Ws :: r) s = Some gs <->
  exists w s', s = w ++ s' /\ spaces w /\ match_at r s' = Some gs.
Proof.
  intros Hr. simpl. split.
  - destruct (greedy Ws (match_at r) s) as [[run gs']|] eqn:Hg; [|done].
    intros [= <-]. destruct (greedy_sound _ _ _ _ _ Hg) as (s' & -> & Hne & Hall & Hk & _).
    exists run, s'. by repeat split.
  - intros (w & s' & -> & [Hne Hall] & Hk).
    rewrite (greedy_maximal Ws (match_at r) w s' gs); auto.
    intros c s'' -> . destruct (is_space c) eqn:Hc; [|done].
    by rewrite Hr in Hk.
Qed.

Lemma match_at_group_end s gs :
  match_at [Group NonWs] s = Some gs <-> exists t, gs = [t] /\ leading_token t s.
Proof.
  simpl. split.
  - destruct (greedy NonWs (fun _ => Some []) s) as [[run gs']|] eqn:Hg; [|done].
    intros [= <-]. destruct (greedy_sound _ _ _ _ _ Hg) as (s' & -> & Hne & Hall & Hk & Hmax).
    injection Hk as <-. exists run. split; [done|]. exists s'. split; [done|].
    split.
    + split; [done|]. eapply Forall_impl; [exact Hall|]. simpl. intros c Hc.
      by destruct (is_space c).
    + destruct s' as [|c s'']; [done|]. destruct (is_space c) eqn:Hc; [done|].
      specialize (Hmax c s'' eq_refl). simpl in Hmax. rewrite Hc in Hmax.
      specialize (Hmax eq_refl). simpl in Hmax.
      by destruct (greedy NonWs (fun _ => Some []) s'') as [[? ?]|].
  - intros (t & -> & rest & -> & [Hne Hall] & Hend).
    rewrite (greedy_maximal NonWs (fun _ => Some []) t rest []); auto.
    + eapply Forall_impl; [exact Hall|]. simpl. by intros c ->.
    + intros c s'' ->. simpl. by rewrite Hend.
Qed.

Lemma leading_token_head t s :
  leading_token t s -> exists c s', s = c :: s' /\ is_space c = false.
Proof.
  intros (rest & -> & [Hne Hall] & _). destruct t as [|c t]; [done|].
  inversion Hall; subst. by exists c, (t ++ rest).
Qed.

Lemma match_doc_pattern s gs :
  match_at doc_pattern s = Some gs <-> exists t, gs = [t] /\ doc_shape s t.
Proof.
  unfold doc_pattern, lits, doc_shape. rewrite match_at_lits. split.
  - intros (s1 & -> & H). apply match_at_dot in H as (c & s2 & -> & Hc & H).
    apply (match_at_lits (py " : ")) in H as (s3 & -> & H).
    apply match_at_group_end in H as (t & -> & Ht). exists t. split; [done|].
    by exists c, s3.
  - intros (t & -> & c & rest & -> & Hc & Ht). eexists. split; [reflexivity|].
    apply match_at_dot. exists c, (py " : " ++ rest). do 2 (split; [done|]).
    apply (match_at_lits (py " : ")). exists rest. split; [done|].
    apply match_at_group_end. eauto.
Qed.

Lemma match_gst_pattern s gs :
  match_at gst_pattern s = Some gs <-> exists g, gs = [g] /\ gst_shape s g.
Proof.
  assert (forall l r c s', l <> [] -> Forall (fun d => is_space d = false) l ->
            is_space c = true ->
            match_at (map (fun c => One (Lit c)) l ++ r) (c :: s') = None) as Hlit.
  { intros l r c s' Hne Hl Hc. destruct l as [|d l]; [done|]. simpl.
    destruct (c =? d) eqn:E; [|done]. apply N.eqb_eq in E as ->.
    inversion Hl; subst. congruence. }
  assert (forall c s', is_space c = true -> match_at [Group NonWs] (c :: s') = None) as Hgrp.
  { intros c s' Hc. simpl. by rewrite Hc. }
  unfold gst_pattern, lits, gst_shape. rewrite match_at_lits. split.
  - intros (s1 & -> & H).
    apply match_at_plus_ws in H as (w1 & s2 & -> & Hw1 & H);
      [|intros; apply Hlit; [done | by repeat constructor | done]].
    apply (match_at_lits (py ":")) in H as (s3 & -> & H).
    apply match_at_plus_ws in H as (w2 & s4 & -> & Hw2 & H);
      [|intros; apply Hlit; [done | by repeat constructor | done]].
    apply (match_at_lits (py "GSTIN")) in H as (s5 & -> & H).
    apply match_at_plus_ws in H as (w3 & s6 & -> & Hw3 & H);
      [|intros; apply Hlit; [done | by repeat constructor | done]].
    apply (match_at_lits (py ":")) in H as (s7 & -> & H).
    apply match_at_plus_ws in H as (w4 & s8 & -> & Hw4 & H); [|exact Hgrp].
    apply match_at_group_end in H as (g & -> & Hg).
    exists g. split; [done|]. by exists w1, w2, w3, w4, s8.
  - intros (g & -> & w1 & w2 & w3 & w4 & rest & -> & Hw1 & Hw2 & Hw3 & Hw4 & Hg).
    eexists. split; [reflexivity|].
    apply match_at_plus_ws; [intros; apply Hlit; [done | by repeat constructor | done]|].
    eexists w1, _. do 2 (split; [done|]).
    apply (match_at_lits (py ":")). eexists. split; [reflexivity|].
    apply match_at_plus_ws; [intros; apply Hlit; [done | by repeat constructor | done]|].
    eexists w2, _. do 2 (split; [done|]).
    apply (match_at_lits (py "GSTIN")). eexists. split; [reflexivity|].
    apply match_at_plus_ws; [intros; apply Hlit; [done | by repeat constructor | done]|].
    eexists w3, _. do 2 (split; [done|]).
    apply (match_at_lits (py ":")). eexists. split; [reflexivity|].
    apply match_at_plus_ws; [exact Hgrp|].
    eexists w4, _. do 2 (split; [done|]).
    apply match_at_group_end. eauto.
Qed.

(** [search] returns the match at the leftmost place that has one. *)
Lemma search_spec r text gs :
  search r text = Some gs <->
  exists before s,
    text = before ++ s /\ match_at r s = Some gs /\
    forall before' s',
      text = before' ++ s' -> (length before' < length before)%nat ->
      match_at r s' = None.
Proof.
  revert gs. induction text as [|c text IH]; intros gs; simpl.
  - destruct (match_at r []) as [gs'|] eqn:Hm.
    + split.
      * intros [= <-]. exists [], []. repeat split; auto. simpl. intros; lia.
      * intros (before & s & Heq & Hs & _). symmetry in Heq.
        apply app_eq_nil in Heq as [-> ->]. congruence.
    + split; [done|]. intros (before & s & Heq & Hs & _). symmetry in Heq.
      apply app_eq_nil in Heq as [-> ->]. congruence.
  - destruct (match_at r (c :: text)) as [gs'|] eqn:Hm.
    + split.
      * intros [= <-]. exists [], (c :: text). repeat split; auto. simpl. intros; lia.
      * intros (before & s & Heq & Hs & Hleft). destruct before as [|d before].
        -- simpl in Heq. subst s. congruence.
        -- rewrite (Hleft [] (c :: text) eq_refl) in Hm; [done | simpl; lia].
    + rewrite IH. split.
      * intros (before & s & -> & Hs & Hleft). exists (c :: before), s.
        repeat split; auto. intros [|d before'] s' Heq Hlen.
        -- simpl in Heq. by subst s'.
        -- injection Heq as <- Heq. apply (Hleft before' s' Heq). simpl in Hlen. lia.
      * intros (before & s & Heq & Hs & Hleft). destruct before as [|d before].
        -- simpl in Heq. subst s. congruence.
        -- injection Heq as <- ->. exists before, s. repeat split; auto.
           intros before' s' Heq Hlen. apply (Hleft (c :: before') s').
           ++ by rewrite Heq.
           ++ simpl. lia.
Qed.

Lemma search_leftmost r (shape : pystr -> pystr -> Prop) text gs :
  (forall s gs, match_at r s = Some gs <-> exists t, gs = [t] /\ shape s t) ->
  search r text = Some gs <-> exists t, gs = [t] /\ leftmost shape text t.
Proof.
  intros Hshape. rewrite search_spec. split.
  - intros (before & s & -> & Hs & Hleft). apply Hshape in Hs as (t & -> & Ht).
    exists t. split; [done|]. exists before, s. do 2 (split; [done|]).
    intros before' s' t' Heq Ht'.
    destruct (decide (length before' < length before)%nat) as [Hlt|]; [|lia].
    specialize (Hleft before' s' Heq Hlt).
    assert (match_at r s' = Some [t']) as Hm by (apply Hshape; eauto).
    congruence.
  - intros (t & -> & before & s & -> & Ht & Hleft). exists before, s.
    split; [done|]. split; [apply Hshape; eauto|].
    intros before' s' Heq Hlt. destruct (match_at r s') as [gs'|] eqn:Hm; [|done].
    apply Hshape in Hm as (t' & -> & Ht'). specialize (Hleft before' s' t' Heq Ht'). lia.
Qed.

Lemma search_doc_pattern text gs :
  search doc_pattern text = Some gs <-> exists t, gs = [t] /\ leftmost doc_shape text t.
Proof. apply search_leftmost, match_doc_pattern. Qed.

Lemma search_gst_pattern text gs :
  search gst_pattern text = Some gs <-> exists g, gs = [g] /\ leftmost gst_shape text g.
Proof. apply search_leftmost, match_gst_pattern. Qed.

Lemma search_exists r before s :
  is_Some (match_at r s) -> is_Some (search r (before ++ s)).
Proof.
  intros Hs. induction before as [|c before IH]; simpl.
  - destruct s; simpl; destruct Hs as [gs ->]; eauto.
  - destruct (match_at r (c :: before ++ s)); eauto.
Qed.

Lemma occurs_complete label before after :
  occurs label (before ++ label ++ after) = true.
Proof.
  assert (forall text, occurs label text =
            pystr_eqb (take (length label) text) label
            || match text with [] => false | _ :: text' => occurs label text' end) as Hunf.
  { by intros []. }
  induction before as [|c before IH]; rewrite Hunf.
  - cbn [app]. rewrite take_app_length. unfold pystr_eqb.
    by rewrite bool_decide_eq_true_2.
  - cbn [app]. rewrite IH. apply orb_true_r.
Qed.

Lemma leading_token_unique t t' s : leading_token t s -> leading_token t' s -> t = t'.
Proof.
  intros (r1 & -> & [_ Ht] & He1) (r2 & Heq & [_ Ht'] & He2).
  revert t' Ht' Heq. induction Ht as [|c t Hc Ht IH]; intros t' Ht' Heq.
  - destruct Ht' as [|c' t' Hc' _]; [done|]. simpl in Heq. subst r1. congruence.
  - destruct Ht' as [|c' t' Hc' Ht'].
    + simpl in Heq. subst r2. congruence.
    + injection Heq as <- Heq. f_equal. by apply IH.
Qed.

Lemma marker_spec text id gstin :
  marker text = Some (id, gstin) <->
  leftmost doc_shape text id /\ leftmost gst_shape text gstin.
Proof.
  unfold marker. split.
  - destruct (search doc_pattern text) as [dm|] eqn:Hd; [|done].
    destruct (search gst_pattern text) as [gm|] eqn:Hg; [|done].
    apply search_doc_pattern in Hd as (t & -> & Ht).
    apply search_gst_pattern in Hg as (g & -> & Hg). by intros [= <- <-].
  - intros [Hd Hg].
    assert (search doc_pattern text = Some [id]) as -> by (apply search_doc_pattern; eauto).
    by assert (search gst_pattern text = Some [gstin]) as ->
      by (apply search_gst_pattern; eauto).
Qed.

End RegexFacts.

(** ** The invoices of a document *)

Section ScanFacts.

Variable doc : list page.

Lemma markers_from_cons j n :
  markers_from doc j (S n) =
  (if from_option is_marker false (doc !! j) then [j] else []) ++ markers_from doc (S j) n.
Proof.
  unfold markers_from. simpl. rewrite filter_cons.
  destruct (from_option is_marker false (doc !! j)); by simplify_option_eq.
Qed.

Lemma markers_from_bounds j n :
  Forall (fun m => (j <= m < j + n)%nat) (markers_from doc j n).
Proof.
  unfold markers_from. apply Forall_forall. intros m Hm.
  apply list_elem_of_filter in Hm as [_ Hm]. apply elem_of_seq in Hm. lia.
Qed.

Lemma markers_from_head j n :
  (j <= default (j + n) (head (markers_from doc j n)) <= j + n)%nat.
Proof.
  pose proof (markers_from_bounds j n) as H.
  destruct (markers_from doc j n) as [|m ms]; simpl; [lia|].
  inversion H; subst. lia.
Qed.

Lemma scan_blocks rest : forall pre cur,
  doc = pre ++ rest ->
  exists tl,
    scan cur (length pre) (map (fun pg => marker (page_text pg)) rest) =
      extended cur (length pre)
        (default (length doc) (head (markers_from doc (length pre) (length rest)))) ++ tl /\
    Forall2 (invoice_of_block doc)
      (blocks (markers_from doc (length pre) (length rest)) (length doc)) tl.
Proof.
  induction rest as [|pg rest IH]; intros pre cur Hdoc.
  - exists []. split; [|constructor].
    assert (length doc = length pre) as -> by (by rewrite Hdoc, app_nil_r).
    destruct cur as [[[a g] ps]|]; cbn; [|done].
    by rewrite Nat.sub_diag, !app_nil_r.
  - assert (doc !! length pre = Some pg) as Hpg.
    { rewrite Hdoc. by rewrite list_lookup_middle. }
    assert (length doc = S (length pre) + length rest)%nat as Hlen.
    { rewrite Hdoc, length_app. simpl. lia. }
    specialize (IH (pre ++ [pg])). rewrite length_app, Nat.add_1_r in IH.
    pose proof (markers_from_head (S (length pre)) (length rest)) as Hhd.
    rewrite <- Hlen in Hhd.
    set (nxt := default (length doc) (head (markers_from doc (S (length pre)) (length rest))))
      in *.
    cbn [length]. rewrite markers_from_cons, Hpg. cbn [from_option map scan].
    unfold is_marker. destruct (marker (page_text pg)) as [[a g]|] eqn:Hm.
    + destruct (IH (Some (a, g, [length pre]))) as (tl & Hscan & Htl).
      { by rewrite <- app_assoc. }
      exists ((a, g, seq (length pre) (nxt - length pre)) :: tl). split.
      * rewrite Hscan. simpl.
        replace (nxt - length pre)%nat with (S (nxt - S (length pre))) by lia.
        destruct cur as [[[a' g'] ps]|]; simpl; [|done].
        by rewrite Nat.sub_diag, app_nil_r.
      * simpl. constructor; [|done]. exists pg, a, g. by fold nxt.
    + simpl. fold nxt.
      destruct (IH (match cur with
                    | Some (a, b, ps) => Some (a, b, ps ++ [length pre])
                    | None => None
                    end)) as (tl & Hscan & Htl).
      { by rewrite <- app_assoc. }
      exists tl. split; [|done]. rewrite Hscan. fold nxt.
      destruct cur as [[[a' g'] ps]|]; simpl; [|done].
      replace (nxt - length pre)%nat with (S (nxt - S (length pre))) by lia.
      simpl. by rewrite <- app_assoc.
Qed.

(** The invoices are the blocks between consecutive marker pages. *)
Lemma invoices_blocks :
  Forall2 (invoice_of_block doc) (blocks (marker_positions doc) (length doc)) (invoices doc).
Proof.
  destruct (scan_blocks doc [] None eq_refl) as (tl & Hscan & Htl).
  simpl in Hscan. unfold invoices. rewrite Hscan. exact Htl.
Qed.

Lemma blocks_length ms n : length (blocks ms n) = length ms.
Proof. induction ms; simpl; auto. Qed.

Lemma blocks_lookup ms n i m :
  ms !! i = Some m -> blocks ms n !! i = Some (m, default n (ms !! S i)).
Proof.
  revert i. induction ms as [|m0 ms IH]; intros [|i] H; simplify_eq/=.
  - by destruct ms.
  - by apply IH.
Qed.

Lemma invoices_length : length (invoices doc) = length (marker_positions doc).
Proof.
  rewrite <- (Forall2_length _ _ _ invoices_blocks). apply blocks_length.
Qed.

Lemma invoices_lookup i m :
  marker_positions doc !! i = Some m ->
  exists pg a g,
    doc !! m = Some pg /\ marker (page_text pg) = Some (a, g) /\
    invoices doc !! i =
      Some (a, g, seq m (default (length doc) (marker_positions doc !! S i) - m)).
Proof.
  intros Hm. apply (blocks_lookup _ (length doc)) in Hm.
  destruct (Forall2_lookup_l _ _ _ _ _ invoices_blocks Hm)
    as (inv & Hi & pg & a & g & H1 & H2 & ->).
  exists pg, a, g. auto.
Qed.




Lemma copy_pages_seq m k : copy_pages doc (seq m k) = take k (drop m doc).
Proof.
  unfold copy_pages. revert m. induction k as [|k IH]; intros m; simpl.
  - by rewrite take_0.
  - rewrite IH. destruct (doc !! m) as [pg|] eqn:Hpg; simpl.
    + by rewrite (drop_S _ _ _ Hpg).
    + apply lookup_ge_None in Hpg. rewrite !drop_ge by lia. by rewrite !take_nil.
Qed.

End ScanFacts.

(** ** Whole runs of [split_invoices] *)

Section RunFacts.

Variable P : platform.

Lemma lookup_map {A B} (f : A -> B) (l : list A) i : map f l !! i = f <$> l !! i.
Proof. revert i. induction l as [|x l IH]; intros [|i]; simpl; auto. Qed.

Lemma passing_all gstin_filter l :
  gstin_filter = None \/ gstin_filter = Some [] -> passing P gstin_filter l = l.
Proof.
  intros Hf. unfold passing. induction l as [|i l IH]; [done|].
  rewrite filter_cons, IH. by destruct Hf as [-> | ->].
Qed.

(** Without failing calls the run returns. *)
Lemma split_invoices_returns path gstin_filter doc w :
  disk w !! path = Some (Pdf doc) ->
  (forall n, fault P n = None) ->
  exists files w', split_invoices P path gstin_filter w = (inr files, w').
Proof.
  intros Hd Hq. destruct (split_invoices P path gstin_filter w) as [[e|files] w'] eqn:Hrun.
  - destruct (split_invoices_spec P doc gstin_filter path w _ _ Hd Hrun)
      as (_ & _ & (_ & Hf & _) & _).
    by rewrite Hq in Hf.
  - eauto.
Qed.

Lemma invoice_from_marker (doc : list page) i a g ps :
  invoices doc !! i = Some (a, g, ps) ->
  exists m pg, doc !! m = Some pg /\ marker (page_text pg) = Some (a, g).
Proof.
  intros Hi.
  destruct (Forall2_lookup_r _ _ _ _ _ (invoices_blocks doc) Hi)
    as (b & _ & pg & a' & g' & Hpg & Hm & Heq).
  injection Heq as -> -> _. eauto.
Qed.

Lemma passing_nil gstin_filter (l : list invoice) :
  (forall i inv, l !! i = Some inv ->
     filter_passes P gstin_filter (inv_gstin inv) = false) ->
  passing P gstin_filter l = [].
Proof.
  intros H. unfold passing. induction l as [|x l IH]; [done|].
  rewrite filter_cons, (H 0%nat x eq_refl). simpl.
  destruct (decide (false = true)); [done|]. apply IH. intros i. apply (H (S i)).
Qed.

(** When no invoice passes, nothing is saved, however the run ends. *)
Lemma nothing_passes path gstin_filter doc w r w' :
  disk w !! path = Some (Pdf doc) ->
  passing P gstin_filter (invoices doc) = [] ->
  split_invoices P path gstin_filter w = (r, w') ->
  saved w' = saved w /\ disk w' = disk w /\
  (forall files, r = inr files -> files = []) /\
  ((forall n, fault P n = None) -> r = inr []).
Proof.
  intros Hd Hnil Hrun.
  pose proof (split_invoices_spec P doc gstin_filter path w _ _ Hd Hrun) as (_ & _ & H).
  rewrite Hnil in H. cbn [map] in H. destruct r as [e|files].
  - destruct H as ((_ & Hf & _) & k & Hs & Hk). rewrite take_nil in Hs, Hk.
    rewrite app_nil_r in Hs. do 3 (split; [done|]). intros Hq. by rewrite Hq in Hf.
  - destruct H as (-> & Hs & Hk & _). rewrite app_nil_r in Hs. simpl in *.
    split; [done|]. split; [done|]. split; [|done]. by intros ? [= <-].
Qed.

Lemma markers_from_none (doc : list page) :
  (forall j pg, doc !! j = Some pg -> marker (page_text pg) = None) ->
  forall n j, markers_from doc j n = [].
Proof.
  intros H n. induction n as [|n IH]; intros j; [done|].
  rewrite markers_from_cons, IH, app_nil_r.
  destruct (doc !! j) as [pg|] eqn:Hpg; simpl; [|done].
  unfold is_marker. by rewrite (H j pg Hpg).
Qed.

Lemma path_join_output a :
  path_join OUTPUT_FOLDER a =
    if from_option (N.eqb 47) false (head a) then a else OUTPUT_FOLDER ++ py "/" ++ a.
Proof. reflexivity. Qed.

Lemma path_join_output_inj a b :
  path_join OUTPUT_FOLDER a = path_join OUTPUT_FOLDER b -> a = b.
Proof.
  rewrite !path_join_output.
  assert (exists t, OUTPUT_FOLDER = 115 :: t) as [t Ht] by (eexists; reflexivity).
  assert (forall x : pystr, from_option (N.eqb 47) false (head x) = true -> head x = Some 47)
    as Hslash.
  { intros [|c x]; [done|]. cbn [head from_option]. by intros <-%N.eqb_eq. }
  destruct (from_option (N.eqb 47) false (head a)) eqn:Ea,
           (from_option (N.eqb 47) false (head b)) eqn:Eb.
  - done.
  - intros H%(f_equal head). rewrite (Hslash _ Ea), Ht in H. discriminate.
  - intros H%(f_equal head). rewrite (Hslash _ Eb), Ht in H. discriminate.
  - intros H%(app_inv_head OUTPUT_FOLDER). by apply (app_inv_head (py "/")) in H.
Qed.

Lemma disk_after_other d (outs : list (pystr * list page)) path :
  (forall k o, outs !! k = Some o -> o.1 <> path) ->
  disk_after d outs !! path = d !! path.
Proof.
  revert d. induction outs as [|o outs IH]; intros d H; [done|].
  unfold disk_after in *. simpl. rewrite IH.
  - apply lookup_insert_ne. apply (H 0%nat o eq_refl).
  - intros k. apply (H (S k)).
Qed.

Lemma disk_after_last d o1 o3 path (pdf : list page) :
  (forall k o, o3 !! k = Some o -> o.1 <> path) ->
  disk_after d (o1 ++ (path, pdf) :: o3) !! path = Some (Pdf pdf).
Proof.
  intros H. rewrite <- disk_after_app.
  change (disk_after ?d ((path, pdf) :: o3))
    with (disk_after (<[path := Pdf pdf]> d) o3).
  rewrite disk_after_other by done. apply lookup_insert_eq.
Qed.

(** After saving the invoices [l], the file of the last invoice with a given
    file name holds that invoice's pages. *)
Lemma disk_after_lookup (doc : list page) d (l : list invoice) i x :
  l !! i = Some x ->
  (forall k y, (i < k)%nat -> l !! k = Some y ->
     invoice_filename P y <> invoice_filename P x) ->
  disk_after d (map (invoice_output P doc) l) !! invoice_path P x =
    Some (Pdf (copy_pages doc (inv_pages x))).
Proof.
  intros Hi Hlater. rewrite <- (take_drop_middle l i x Hi), map_app. cbn [map].
  apply disk_after_last. intros k o Ho. rewrite lookup_map in Ho.
  destruct (drop (S i) l !! k) as [y|] eqn:Hk; [|done]. injection Ho as <-.
  rewrite lookup_drop in Hk. simpl. intros Heq%path_join_output_inj. revert Heq.
  apply (Hlater (S i + k)%nat); [lia | done].
Qed.

(** Two passing invoices stay in their order among the passing ones. *)
Lemma passing_two gstin_filter (l : list invoice) i j x y :
  (i < j)%nat -> l !! i = Some x -> l !! j = Some y ->
  filter_passes P gstin_filter (inv_gstin x) = true ->
  filter_passes P gstin_filter (inv_gstin y) = true ->
  exists l1 l2,
    passing P gstin_filter l = l1 ++ x :: l2 ++ y :: passing P gstin_filter (drop (S j) l).
Proof.
  intros Hij Hi Hj Hx Hy.
  assert (drop (S i) l !! (j - S i)%nat = Some y) as Hj'.
  { rewrite lookup_drop. by replace (S i + (j - S i))%nat with j by lia. }
  assert (l = take i l ++ x :: take (j - S i) (drop (S i) l) ++ y :: drop (S j) l) as Hl.
  { rewrite <- (take_drop_middle l i x Hi) at 1. do 2 f_equal.
    rewrite <- (take_drop_middle _ _ y Hj') at 1. rewrite drop_drop.
    by replace (S i + S (j - S i))%nat with (S j) by lia. }
  remember (drop (S j) l) as l3. remember (take i l) as l1.
  remember (take (j - S i) (drop (S i) l)) as l2.
  rewrite Hl. unfold passing. rewrite filter_app, filter_cons, filter_app, filter_cons.
  rewrite !decide_True by done. eauto.
Qed.

(** However the run ends: the open documents are as before, and either no
    call failed or the run raised what the one failing call raised. *)
Lemma split_invoices_outcome path gstin_filter w r w' :
  split_invoices P path gstin_filter w = (r, w') ->
  open_docs w' = open_docs w /\
  (quiet P w w' \/ exists e, r = inl e /\ failed P w w' e).
Proof.
  intros Hrun.
  assert ((forall content, disk w !! path = Some content -> fitz_view P content = None) ->
          open_docs w' = open_docs w /\
          (quiet P w w' \/ exists e, r = inl e /\ failed P w w' e)) as Hunread.
  { intros Hno.
    destruct (split_invoices_unread P gstin_filter path w r w' Hno Hrun)
      as (Ho & _ & _ & e & -> & [Hf|(Hq & _)]); eauto. }
  destruct (disk w !! path) as [content|] eqn:Hd; [|by apply Hunread].
  destruct (fitz_view P content) as [[[] doc]|] eqn:Hv.
  - destruct (split_invoices_read P doc gstin_filter content path w _ _ Hd Hv Hrun)
      as (Ho & _ & H).
    split; [done|]. destruct r as [e|files].
    + right. exists e. by destruct H.
    + left. by destruct H as (_ & _ & _ & ?).
  - destruct (split_invoices_foreign P doc gstin_filter content path w _ _ Hd Hv Hrun)
      as (Ho & _ & _ & _ & H).
    split; [done|]. destruct r as [e|files].
    + destruct H as [Hf|(Hq & _)]; eauto.
    + left. by destruct H as (_ & _ & ?).
  - apply Hunread. by intros ? [= <-].
Qed.

Lemma blocks_lookup_inv ms n i b : blocks ms n !! i = Some b -> ms !! i = Some b.1.
Proof.
  revert i. induction ms as [|m0 ms IH]; intros [|i] H; simplify_eq/=; [done|].
  by apply IH.
Qed.

Lemma invoice_position (doc : list page) l a g ps :
  invoices doc !! l = Some (a, g, ps) ->
  exists m pg,
    marker_positions doc !! l = Some m /\ doc !! m = Some pg /\
    marker (page_text pg) = Some (a, g).
Proof.
  intros Hl.
  destruct (Forall2_lookup_r _ _ _ _ _ (invoices_blocks doc) Hl)
    as (b & Hb & pg & a' & g' & Hpg & Hm & Heq).
  injection Heq as -> -> _. apply blocks_lookup_inv in Hb. eauto.
Qed.

(** [filter "abc123"], GSTIN ["ABC123"], wherever [upper] is the ASCII mapping
    on ASCII strings. *)
Lemma filter_case_example :
  (forall s, Forall (fun c => c < 128) s -> upper P s = ascii_upper s) ->
  filter_passes P (Some (py "abc123")) (py "ABC123") = true.
Proof.
  intros Hup. unfold filter_passes, pystr_eqb. cbn. apply bool_decide_eq_true_2.
  rewrite !Hup; [reflexivity | |]; by repeat constructor.
Qed.

End RunFacts.

(** ** The upload checks *)

Section UploadFacts.

Variable P : platform.

Lemma rsplit_last_none sep s :
  Forall (fun c => c <> sep) s -> rsplit_last sep s = None.
Proof.
  induction 1 as [|c s Hc _ IH]; simpl; [done|]. rewrite IH.
  by apply N.eqb_neq in Hc as ->.
Qed.

Lemma rsplit_last_some sep stem ext :
  Forall (fun c => c <> sep) ext ->
  rsplit_last sep (stem ++ sep :: ext) = Some (stem, ext).
Proof.
  intros Hext. induction stem as [|c stem IH]; simpl.
  - by rewrite rsplit_last_none, N.eqb_refl.
  - by rewrite IH.
Qed.

Lemma rsplit_last_spec sep s :
  match rsplit_last sep s with
  | Some (stem, ext) => s = stem ++ sep :: ext /\ Forall (fun c => c <> sep) ext
  | None => Forall (fun c => c <> sep) s
  end.
Proof.
  induction s as [|c s IH]; simpl; [constructor|].
  destruct (rsplit_last sep s) as [[stem ext]|].
  - destruct IH as [-> Hext]. auto.
  - destruct (c =? sep) eqn:Hc.
    + apply N.eqb_eq in Hc as ->. auto.
    + apply N.eqb_neq in Hc. by constructor.
Qed.

(** [allowed_file] never raises, changes nothing, and says whether the name
    has an allowed extension. *)
Lemma allowed_file_spec name w :
  exists b,
    allowed_file P name w = (inr b, w) /\ (b = true <-> has_allowed_extension P name).
Proof.
  unfold allowed_file, rsplit1. pose proof (rsplit_last_spec 46 name) as Hsplit.
  destruct (rsplit_last 46 name) as [[stem ext]|] eqn:Hr.
  - destruct Hsplit as [-> Hext].
    assert (existsb (N.eqb 46) (stem ++ 46 :: ext) = true) as Hdot.
    { apply existsb_exists. exists 46. split; [|done]. apply in_or_app. right. by left. }
    exists (existsb (pystr_eqb (lower P ext)) ALLOWED_EXTENSIONS).
    split; [by rewrite Hdot|].
    unfold pystr_eqb, ALLOWED_EXTENSIONS. cbn [existsb].
    rewrite orb_false_r, orb_true_iff, !bool_decide_eq_true. split.
    + intros Hl. by exists stem, ext.
    + intros (stem' & ext' & Heq & Hext' & Hl).
      change (py "." ++ ext') with (46 :: ext') in Heq.
      pose proof (rsplit_last_some 46 stem' ext' Hext') as Hr'.
      rewrite <- Heq, Hr in Hr'. by injection Hr' as _ <-.
  - assert (existsb (N.eqb 46) name = false) as Hdot.
    { apply not_true_is_false. intros (c & Hin & Hc)%existsb_exists.
      apply N.eqb_eq in Hc as <-. rewrite Forall_forall in Hsplit.
      apply (Hsplit 46); [by apply list_elem_of_In | done]. }
    exists false. split; [by rewrite Hdot|]. split; [done|].
    intros (stem & ext & -> & Hext & _).
    change (py "." ++ ext) with (46 :: ext) in Hr.
    by rewrite rsplit_last_some in Hr.
Qed.

End UploadFacts.

(** * The claims *)

(** C1: without a GSTIN filter the run returns unless a library call fails,
    and when it returns it has saved exactly one file per marker page, in
    order. The i-th of them holds the pages from the i-th marker page up to,
    but not including, the next marker page (or the end of the document), in
    the document's order; its name, the i-th returned, is built from the i-th
    marker page's captures; and that file is still on disk with these pages at
    the end unless a later invoice has the same file name. *)
Theorem split_invoices_one_output_per_marker
    (P : platform) (path : pystr) (gstin_filter : option pystr)
    (doc : list page) (w w' : world) (r : exn + list pystr) :
  disk w !! path = Some (Pdf doc) ->
  gstin_filter = None \/ gstin_filter = Some [] ->
  split_invoices P path gstin_filter w = (r, w') ->
  ((forall n, fault P n = None) -> exists files, r = inr files) /\
  forall files,
    r = inr files ->
    exists outs,
      saved w' = saved w ++ outs /\
      length outs = length (marker_positions doc) /\
      length files = length (marker_positions doc) /\
      forall i m,
        marker_positions doc !! i = Some m ->
        exists pg id gstin,
          let name := secure_filename P (id ++ py "_" ++ gstin ++ py ".pdf") in
          let pages := slice doc m (default (length doc) (marker_positions doc !! S i)) in
          doc !! m = Some pg /\
          marker (page_text pg) = Some (id, gstin) /\
          files !! i = Some name /\
          outs !! i = Some (path_join OUTPUT_FOLDER name, pages) /\
          ((forall k, (i < k)%nat -> files !! k <> Some name) ->
           disk w' !! path_join OUTPUT_FOLDER name = Some (Pdf pages)).
Proof.
  intros Hd Hnf Hrun. split.
  { intros Hq. destruct (split_invoices_returns P path gstin_filter doc w Hd Hq)
      as (files & w1 & Hret). rewrite Hrun in Hret. injection Hret as -> _. eauto. }
  intros files ->.
  destruct (split_invoices_spec P doc gstin_filter path w _ _ Hd Hrun)
    as (_ & _ & Hfiles & Hsaved & Hdisk & _).
  rewrite passing_all in Hfiles, Hsaved, Hdisk by done.
  exists (map (invoice_output P doc) (invoices doc)).
  split; [done|]. rewrite Hfiles, !length_map, invoices_length.
  do 2 (split; [done|]).
  intros i m Hm. destruct (invoices_lookup doc i m Hm) as (pg & a & g & Hpg & Hmk & Hi).
  exists pg, a, g. cbv zeta. do 2 (split; [done|]).
  rewrite !lookup_map, Hi. simpl. split; [done|].
  unfold invoice_output, invoice_path, invoice_filename, inv_pages, slice. simpl.
  rewrite copy_pages_seq. split; [done|].
  intros Hlater. rewrite Hdisk.
  etransitivity; [apply (disk_after_lookup P doc (disk w) (invoices doc) i _ Hi)|].
  - intros k y Hk Hy Heq. apply (Hlater k Hk). rewrite lookup_map, Hy. simpl.
    f_equal. exact Heq.
  - unfold inv_pages. simpl. by rewrite copy_pages_seq.
Qed.

Lemma split_invoices_one_output_per_marker_witness :
  let run := split_invoices sample_platform (py "uploads/in.pdf") None
               (sample_world sample_doc) in
  exists outs,
    saved run.2 = [] ++ outs /\
    length outs = length (marker_positions sample_doc) /\
    length (returned run) = length (marker_positions sample_doc) /\
    forall i m,
      marker_positions sample_doc !! i = Some m ->
      exists pg id gstin,
        let name := id ++ py "_" ++ gstin ++ py ".pdf" in
        let pages :=
          slice sample_doc m
            (default (length sample_doc) (marker_positions sample_doc !! S i)) in
        sample_doc !! m = Some pg /\
        marker (page_text pg) = Some (id, gstin) /\
        returned run !! i = Some name /\
        outs !! i = Some (path_join OUTPUT_FOLDER name, pages) /\
        ((forall k, (i < k)%nat -> returned run !! k <> Some name) ->
         disk run.2 !! path_join OUTPUT_FOLDER name = Some (Pdf pages)).
Proof.
  intros run.
  apply (split_invoices_one_output_per_marker sample_platform (py "uploads/in.pdf") None
           sample_doc (sample_world sample_doc) run.2 run.1).
  - vm_compute. reflexivity.
  - left. reflexivity.
  - vm_compute. reflexivity.
  - vm_compute. reflexivity.
Defined.



(** C3, as stated, fails: on this text both patterns are found, yet the
    literal label of the GSTIN pattern, with its single spaces, is not in
    it. *)
Lemma literal_label_rule_fails :
  ~ literal_label_rule
      (py "Document No. : INV-7 Recipient  :  GSTIN  :  27ABCDE1234F1Z5").
Proof.
  intros [Hiff _].
  destruct (proj1 Hiff) as [_ (t & before & after & Heq & _)].
  - eexists. vm_compute. reflexivity.
  - pose proof (occurs_complete GST_LABEL before after) as Hocc.
    rewrite <- Heq in Hocc. vm_compute in Hocc. discriminate.
Qed.

(** C3, amended: a page is a marker page whenever a token follows the literal
    [Document No. : ] and a token follows the GSTIN label written with any
    run of whitespace in each of its four gaps. On a marker page the captured
    GSTIN is the whole token after the leftmost such GSTIN label; the captured
    document id is a whole token that follows [Document No], one character and
    [ : ], and it is the token after the literal [Document No. : ] when that
    is the first place in the text where [Document No] occurs. *)
Theorem marker_page_rule (text : pystr) :
  (forall t g,
     token_after DOC_LABEL t text ->
     (exists before s, text = before ++ s /\ gst_shape s g) ->
     is_Some (marker text)) /\
  (forall id gstin,
     marker text = Some (id, gstin) ->
     leftmost gst_shape text gstin /\
     (exists before c after,
        text = before ++ py "Document No" ++ c :: py " : " ++ after /\
        leading_token id after) /\
     (forall before after t,
        text = before ++ DOC_LABEL ++ after ->
        leading_token t after ->
        (forall before' s',
           text = before' ++ py "Document No" ++ s' ->
           (length before <= length before')%nat) ->
        id = t)).
Proof.
  split.
  - intros t g (before & after & -> & Ht) (before' & s & Heq & Hg).
    assert (is_Some (Re.search doc_pattern (before ++ DOC_LABEL ++ after))) as [dm Hdm].
    { apply search_exists. exists [t]. apply match_doc_pattern. exists t. split; [done|].
      exists 46, after. by repeat split. }
    assert (is_Some (Re.search gst_pattern (before ++ DOC_LABEL ++ after))) as [gm Hgm].
    { rewrite Heq. apply search_exists. exists [g]. apply match_gst_pattern. eauto. }
    unfold marker. rewrite Hdm, Hgm. eauto.
  - intros id gstin [Hd Hg]%marker_spec. split; [done|].
    destruct Hd as (before0 & s0 & -> & (c & rest & -> & Hc & Hid) & Hleft).
    split; [by exists before0, c, rest|].
    intros before after t Heq Ht Hfirst.
    assert (doc_shape (DOC_LABEL ++ after) t) as Hshape.
    { exists 46, after. by repeat split. }
    pose proof (Hleft before (DOC_LABEL ++ after) t Heq Hshape) as Hle1.
    pose proof (Hfirst before0 _ eq_refl) as Hle2.
    assert (length before0 = length before) as Hlen by lia.
    apply app_inj_1 in Heq as [_ Heq]; [|done].
    change (DOC_LABEL ++ after) with (py "Document No" ++ 46 :: py " : " ++ after) in Heq.
    apply app_inv_head in Heq. injection Heq as _ Heq. subst rest.
    by apply (leading_token_unique id t after).
Qed.

Lemma marker_page_rule_witness :
  let text := py "Document No. : INV-7" ++ [10] ++ py "Recipient :" ++ [9]
              ++ py "GSTIN :  27ABCDE1234F1Z5" in
  is_Some (marker text) /\
  forall id gstin, marker text = Some (id, gstin) -> id = py "INV-7".
Proof.
  intros text. destruct (marker_page_rule text) as [Hif Honly].
  assert (leading_token (py "INV-7")
            (py "INV-7" ++ [10] ++ py "Recipient :" ++ [9] ++ py "GSTIN :  27ABCDE1234F1Z5"))
    as Hid.
  { eexists. split; [reflexivity|]. split; [|reflexivity].
    split; [discriminate | by repeat constructor]. }
  split.
  - apply (Hif (py "INV-7") (py "27ABCDE1234F1Z5")).
    + exists [], (py "INV-7" ++ [10] ++ py "Recipient :" ++ [9]
                  ++ py "GSTIN :  27ABCDE1234F1Z5").
      split; [reflexivity | exact Hid].
    + exists (py "Document No. : INV-7" ++ [10]),
             (py "Recipient :" ++ [9] ++ py "GSTIN :  27ABCDE1234F1Z5").
      split; [reflexivity|].
      exists (py " "), [9], (py " "), (py "  "), (py "27ABCDE1234F1Z5").
      split; [reflexivity|].
      repeat (split; [split; [discriminate | by repeat constructor]|]).
      exists []. split; [reflexivity|]. split; [|done].
      split; [discriminate | by repeat constructor].
  - intros id gstin Hm. destruct (Honly id gstin Hm) as (_ & _ & Hexact).
    apply (Hexact [] (py "INV-7" ++ [10] ++ py "Recipient :" ++ [9]
                      ++ py "GSTIN :  27ABCDE1234F1Z5")).
    + reflexivity.
    + exact Hid.
    + intros. simpl. lia.
Defined.

(** The dot of the document-id pattern stands for any character but a line
    feed, so this text, which lacks the label's full stop, is a marker page
    too. *)
Example dot_matches_any_character :
  marker (py "Document No# : INV-7 Recipient : GSTIN : 27ABCDE1234F1Z5")
  = Some (py "INV-7", py "27ABCDE1234F1Z5").
Proof. vm_compute. reflexivity. Qed.

(** C4: finalizing the open invoice, when it returns, either saves the
    invoice's pages under its file name and records the name, or changes
    nothing. With a filter set it saves exactly when the upper-cased filter
    equals the upper-cased captured GSTIN; with no filter it always saves.
    Where [upper] is the ASCII mapping on ASCII strings, the filter abc123
    passes the GSTIN ABC123. This holds of a source of either kind; from a
    source that is no PDF a finalizing that would save does not return. *)
Theorem finalize_saves_iff_filter_matches
    (P : platform) (src_pdf : bool) (doc : list page) (gstin_filter : option pystr)
    (st st' : locals) (id gstin : pystr) (ps : list nat) (w w' : world) :
  open_invoice st = Some (id, gstin, ps) ->
  Forall (fun p => (p < length doc)%nat) ps ->
  save_invoice P src_pdf doc gstin_filter st w = (inr st', w') ->
  let name := secure_filename P (id ++ py "_" ++ gstin ++ py ".pdf") in
  let out_path := path_join OUTPUT_FOLDER name in
  let written :=
    saved w' = saved w ++ [(out_path, copy_pages doc ps)] /\
    disk w' = <[out_path := Pdf (copy_pages doc ps)]> (disk w) /\
    split_files st' = split_files st ++ [name] in
  let skipped :=
    saved w' = saved w /\ disk w' = disk w /\ split_files st' = split_files st in
  (written \/ skipped) /\
  (forall f, gstin_filter = Some f -> f <> [] ->
     (written <-> upper P f = upper P gstin)) /\
  (gstin_filter = None \/ gstin_filter = Some [] -> written) /\
  ((forall s, Forall (fun c => c < 128) s -> upper P s = ascii_upper s) ->
   filter_passes P (Some (py "abc123")) (py "ABC123") = true).
Proof.
  intros Hopen Hps Hrun. cbv zeta.
  assert (invoice_pages st = ps /\ exists a b, invoice_data st = [a; b]) as [Hpages Hdata].
  { unfold open_invoice in Hopen. destruct (invoice_pages st) as [|p0 l]; [done|].
    destruct (invoice_data st) as [|a [|b [|? ?]]]; try done.
    injection Hopen as _ _ <-. eauto. }
  assert (good doc st) as Hg.
  { split; [by right|]. by rewrite Hpages. }
  assert (saved w' =
            saved w ++ map (invoice_output P doc) (passing P gstin_filter [(id, gstin, ps)]) /\
          disk w' =
            disk_after (disk w)
              (map (invoice_output P doc) (passing P gstin_filter [(id, gstin, ps)])) /\
          st' = Locals (invoice_pages st) (invoice_data st)
                  (split_files st
                   ++ map (invoice_filename P) (passing P gstin_filter [(id, gstin, ps)])))
    as (Hsv & Hdk & ->).
  { destruct src_pdf.
    - pose proof (spec_save_invoice P doc gstin_filter st _ Hopen Hg w) as Hs.
      rewrite Hrun in Hs. by destruct Hs as ((Hsv & Hdk & _) & _ & ->).
    - pose proof (refusing_save_invoice P doc gstin_filter st _ Hopen w) as Hs.
      rewrite Hrun in Hs. destruct Hs as ((Hsv & Hdk & _) & _ & -> & ->).
      rewrite app_nil_r in Hsv. simpl. rewrite !app_nil_r.
      split; [done|]. split; [exact Hdk|]. by destruct st. }
  rewrite passing_one in Hsv, Hdk |- *. unfold inv_gstin in *.
  cbn [fst snd split_files] in *.
  set (name := secure_filename P (id ++ py "_" ++ gstin ++ py ".pdf")) in *.
  set (out_path := path_join OUTPUT_FOLDER name) in *.
  assert (forall f, gstin_filter = Some f -> f <> [] ->
            filter_passes P gstin_filter gstin = true <-> upper P f = upper P gstin) as Hiff.
  { intros f -> Hf. unfold filter_passes. destruct f; [done|]. apply bool_decide_eq_true. }
  assert (gstin_filter = None \/ gstin_filter = Some [] ->
          filter_passes P gstin_filter gstin = true) as Hnone.
  { by intros [-> | ->]. }
  destruct (filter_passes P gstin_filter gstin) eqn:Hp.
  - assert (saved w' = saved w ++ [(out_path, copy_pages doc ps)] /\
            disk w' = <[out_path := Pdf (copy_pages doc ps)]> (disk w) /\
            split_files st ++ [name] = split_files st ++ [name]) as Hw.
    { unfold invoice_output, invoice_path, invoice_filename, inv_pages in Hsv, Hdk.
      by cbn in Hsv, Hdk. }
    split; [by left|]. split; [|split; [done|]].
    + intros f Hf Hne. split; [intros _; by apply (Hiff f)|done].
    + apply filter_case_example.
  - assert (saved w' = saved w /\ disk w' = disk w /\
            split_files st ++ [] = split_files st) as Hs.
    { cbn in Hsv, Hdk. by rewrite !app_nil_r in *. }
    split; [by right|]. split; [|split].
    + intros f Hf Hne. split.
      * intros (Hw & _). destruct Hs as (Hn & _). rewrite Hn in Hw.
        apply (f_equal length) in Hw. rewrite length_app in Hw. simpl in Hw. lia.
      * intros Heq. apply (Hiff f Hf Hne) in Heq. discriminate.
    + intros Hnf. apply Hnone in Hnf. discriminate.
    + apply filter_case_example.
Qed.

Lemma finalize_saves_iff_filter_matches_witness :
  let st := Locals [1%nat; 2%nat] [py "A1"; py "ABC123"] [] in
  let st' := Locals [1%nat; 2%nat] [py "A1"; py "ABC123"] [py "A1_ABC123.pdf"] in
  let w := sample_world sample_doc in
  let w' := (save_invoice sample_platform true sample_doc (Some (py "abc123")) st w).2 in
  save_invoice sample_platform true sample_doc (Some (py "abc123")) st w = (inr st', w') /\
  saved w' = saved w
             ++ [(path_join OUTPUT_FOLDER (py "A1_ABC123.pdf"),
                  copy_pages sample_doc [1%nat; 2%nat])] /\
  disk w' = <[path_join OUTPUT_FOLDER (py "A1_ABC123.pdf")
              := Pdf (copy_pages sample_doc [1%nat; 2%nat])]> (disk w) /\
  split_files st' = split_files st ++ [py "A1_ABC123.pdf"].
Proof.
  intros st st' w w'.
  assert (save_invoice sample_platform true sample_doc (Some (py "abc123")) st w
          = (inr st', w')) as Hrun by (vm_compute; reflexivity).
  split; [exact Hrun|].
  destruct (finalize_saves_iff_filter_matches sample_platform true sample_doc
              (Some (py "abc123")) st st' (py "A1") (py "ABC123") [1%nat; 2%nat] w w')
    as (_ & Hiff & _).
  - reflexivity.
  - repeat constructor.
  - exact Hrun.
  - apply (Hiff (py "abc123")); [reflexivity | discriminate | vm_compute; reflexivity].
Defined.

(** C5: with a filter set that equals, under upper-casing, none of the GSTINs
    captured on the document's marker pages, the run saves nothing and leaves
    the disk as it was; if it returns, it returns the empty list, and it
    returns whenever no library call fails. *)
Theorem unmatched_filter_no_output
    (P : platform) (path f : pystr) (doc : list page) (w w' : world)
    (r : exn + list pystr) :
  disk w !! path = Some (Pdf doc) ->
  f <> [] ->
  (forall j pg id gstin,
     doc !! j = Some pg -> marker (page_text pg) = Some (id, gstin) ->
     upper P f <> upper P gstin) ->
  split_invoices P path (Some f) w = (r, w') ->
  saved w' = saved w /\ disk w' = disk w /\
  (forall files, r = inr files -> files = []) /\
  ((forall n, fault P n = None) -> r = inr []).
Proof.
  intros Hd Hf Hno Hrun. eapply nothing_passes; [exact Hd | | exact Hrun].
  apply passing_nil. intros i [[a g] ps] Hi.
  destruct (invoice_from_marker doc i a g ps Hi) as (m & pg & Hpg & Hm).
  unfold inv_gstin, filter_passes. simpl. destruct f as [|c f]; [done|].
  unfold pystr_eqb. apply bool_decide_eq_false_2. by eapply Hno.
Qed.

Lemma unmatched_filter_no_output_witness :
  let run := split_invoices sample_platform (py "uploads/in.pdf") (Some (py "g3"))
               (sample_world sample_doc) in
  length (returned (split_invoices sample_platform (py "uploads/in.pdf") None
                      (sample_world sample_doc))) = 2%nat /\
  saved run.2 = [] /\ disk run.2 = disk (sample_world sample_doc) /\
  (forall files, run.1 = inr files -> files = []) /\
  ((forall n, fault sample_platform n = None) -> run.1 = inr []).
Proof.
  intros run. split; [vm_compute; reflexivity|].
  apply (unmatched_filter_no_output sample_platform (py "uploads/in.pdf") (py "g3")
           sample_doc (sample_world sample_doc) run.2 run.1).
  - vm_compute. reflexivity.
  - discriminate.
  - intros [|[|[|[|[|j]]]]] pg id gstin Hpg Hm; vm_compute in Hpg;
      try discriminate; injection Hpg as <-; vm_compute in Hm;
      try discriminate; injection Hm as <- <-; vm_compute; discriminate.
  - vm_compute. reflexivity.
Defined.

(** C6: on a document without marker pages the run saves nothing and leaves
    the disk as it was; if it returns, it returns the empty list, and it
    returns whenever no library call fails. *)
Theorem no_marker_no_output
    (P : platform) (path : pystr) (gstin_filter : option pystr)
    (doc : list page) (w w' : world) (r : exn + list pystr) :
  disk w !! path = Some (Pdf doc) ->
  (forall j pg, doc !! j = Some pg -> marker (page_text pg) = None) ->
  split_invoices P path gstin_filter w = (r, w') ->
  saved w' = saved w /\ disk w' = disk w /\
  (forall files, r = inr files -> files = []) /\
  ((forall n, fault P n = None) -> r = inr []).
Proof.
  intros Hd Hno Hrun. eapply nothing_passes; [exact Hd | | exact Hrun].
  pose proof (invoices_length doc) as Hlen.
  unfold marker_positions in Hlen. rewrite markers_from_none in Hlen by done.
  by destruct (invoices doc).
Qed.

Lemma no_marker_no_output_witness :
  let run := split_invoices sample_platform (py "uploads/in.pdf") None
               (sample_world sample_plain_doc) in
  saved run.2 = [] /\ disk run.2 = disk (sample_world sample_plain_doc) /\
  (forall files, run.1 = inr files -> files = []) /\
  ((forall n, fault sample_platform n = None) -> run.1 = inr []).
Proof.
  intros run.
  apply (no_marker_no_output sample_platform (py "uploads/in.pdf") None
           sample_plain_doc (sample_world sample_plain_doc) run.2 run.1).
  - vm_compute. reflexivity.
  - intros [|[|j]] pg Hpg; vm_compute in Hpg; try discriminate;
      injection Hpg as <-; vm_compute; reflexivity.
  - vm_compute. reflexivity.
Defined.

(** The upload endpoint turns whatever its processing raises into the 500
    response. *)
Lemma upload_pdf_reports_failure (P : platform) req w1 w2 e :
  upload_pdf_try P req w1 = (inl e, w2) ->
  upload_pdf P req w1 =
    (inr (Response 500 (error_body "An error occurred while processing the file")), w2).
Proof. intros Htry. unfold upload_pdf, try_except. by rewrite Htry. Qed.

(** C7: however a run of [split_invoices] ends, the source documents open
    after it are those open before it, so the handle it opened is closed; and
    if any library call made during the run (reading a page, copying a page,
    saving a file) failed, the run raised to its caller exactly what that call
    raised. *)
Theorem split_invoices_closes_and_propagates
    (P : platform) (path : pystr) (gstin_filter : option pystr)
    (w w' : world) (r : exn + list pystr) :
  split_invoices P path gstin_filter w = (r, w') ->
  open_docs w' = open_docs w /\
  (forall n e, (clock w <= n < clock w')%nat -> fault P n = Some e -> r = inl e).
Proof.
  intros Hrun.
  destruct (split_invoices_outcome P path gstin_filter w r w' Hrun) as [Ho Hout].
  split; [done|].
  intros n e Hn Hf. destruct Hout as [Hq | (e0 & -> & Hlt & Hlast & Hq)].
  - rewrite (Hq n Hn) in Hf. discriminate.
  - destruct (decide (n = clock w' - 1)%nat) as [->|Hne].
    + congruence.
    + rewrite Hq in Hf by lia. discriminate.
Qed.

Lemma split_invoices_closes_and_propagates_witness :
  let w := sample_world sample_doc in
  let run := split_invoices sample_faulty_platform (py "uploads/in.pdf") None w in
  run.1 = inl (LibraryError 5) /\
  open_docs run.2 = open_docs w /\
  (forall n e, (clock w <= n < clock run.2)%nat ->
     fault sample_faulty_platform n = Some e -> run.1 = inl e).
Proof.
  intros w run. split; [vm_compute; reflexivity|].
  apply (split_invoices_closes_and_propagates sample_faulty_platform (py "uploads/in.pdf")
           None w run.2 run.1).
  vm_compute. reflexivity.
Defined.

(** C8: an upload without a file part, with an empty file name, or with a
    file name that has no extension which lower-cased is pdf or zip, is
    answered with status 400 and a JSON object holding an error message, and
    the world is left exactly as it was: no file written, no document opened,
    no library call made. *)
Theorem upload_rejects_bad_request (P : platform) (req : request) (w : world) :
  (multidict_get (py "file") (files req) = None ->
   upload_pdf P req w = (inr (Response 400 (error_body "No file part")), w)) /\
  (forall file,
     multidict_get (py "file") (files req) = Some file ->
     filename file = [] ->
     upload_pdf P req w = (inr (Response 400 (error_body "No selected file")), w)) /\
  (forall file,
     multidict_get (py "file") (files req) = Some file ->
     filename file <> [] ->
     ~ has_allowed_extension P (filename file) ->
     upload_pdf P req w =
       (inr (Response 400
               (error_body "Invalid file type. Only PDF and ZIP files are allowed.")), w)).
Proof.
  unfold upload_pdf, try_except, upload_pdf_try. repeat split.
  - by intros ->.
  - intros file -> ->. reflexivity.
  - intros file -> Hne Hext. unfold pystr_eqb. rewrite bool_decide_eq_false_2 by done.
    destruct (allowed_file_spec P (filename file) w) as (b & Hb & Hiff).
    unfold bind at 1. rewrite Hb. destruct b; [|reflexivity].
    exfalso. by apply Hext, Hiff.
Qed.

Lemma upload_rejects_bad_request_witness :
  upload_pdf sample_platform (Request [] []) (sample_world []) =
    (inr (Response 400 (error_body "No file part")), sample_world []) /\
  upload_pdf sample_platform (sample_upload "") (sample_world []) =
    (inr (Response 400 (error_body "No selected file")), sample_world []) /\
  upload_pdf sample_platform (sample_upload "invoices.PDF.exe") (sample_world []) =
    (inr (Response 400
            (error_body "Invalid file type. Only PDF and ZIP files are allowed.")),
     sample_world []) /\
  (upload_pdf sample_platform (sample_upload "invoices.PDF") (sample_world [])).1 =
    inr (Response 200 [(py "message", JStr (py "Files processed successfully!"));
                       (py "files", JList [py "A1_g1.pdf"; py "A2_G2.pdf"])]).
Proof.
  destruct (upload_rejects_bad_request sample_platform (Request [] []) (sample_world []))
    as (H1 & _ & _).
  destruct (upload_rejects_bad_request sample_platform (sample_upload "") (sample_world []))
    as (_ & H2 & _).
  destruct (upload_rejects_bad_request sample_platform (sample_upload "invoices.PDF.exe")
              (sample_world [])) as (_ & _ & H3).
  split; [by apply H1|]. split; [by eapply H2|]. split; [|vm_compute; reflexivity].
  eapply H3; [reflexivity | discriminate |].
  intros (stem & ext & Heq & Hext & Hl).
  pose proof (rsplit_last_some 46 stem ext Hext) as Hr.
  change (stem ++ 46 :: ext) with (stem ++ py "." ++ ext) in Hr.
  rewrite <- Heq in Hr. vm_compute in Hr. injection Hr as _ <-.
  vm_compute in Hl. by destruct Hl.
Defined.

(** C9: a page on which exactly one of the two patterns is found is not a
    marker page; [process_page] reads it and then only appends its number to
    the open invoice, or leaves the variables alone when none is open, saving
    nothing; and that is, step for step, what it does when the page is
    replaced by one on which neither pattern is found. The kind of the source
    document plays no part in it. *)
Theorem one_pattern_page_is_no_marker
    (P : platform) (src_pdf : bool) (doc : list page) (gstin_filter : option pystr)
    (j : nat) (pg pg' : page) (st : locals) (w : world) :
  doc !! j = Some pg ->
  (is_Some (Re.search doc_pattern (page_text pg)) /\
   Re.search gst_pattern (page_text pg) = None) \/
  (Re.search doc_pattern (page_text pg) = None /\
   is_Some (Re.search gst_pattern (page_text pg))) ->
  Re.search doc_pattern (page_text pg') = None ->
  Re.search gst_pattern (page_text pg') = None ->
  marker (page_text pg) = None /\
  process_page P src_pdf doc gstin_filter j st w =
    (get_text P doc j ;;;
     ret (if nonempty (invoice_pages st)
          then Locals (invoice_pages st ++ [j]) (invoice_data st) (split_files st)
          else st)) w /\
  process_page P src_pdf (<[j := pg']> doc) gstin_filter j st w =
    process_page P src_pdf doc gstin_filter j st w.
Proof.
  intros Hpg Hone Hd' Hg'.
  assert (j < length doc)%nat as Hj by (by eapply lookup_lt_Some).
  assert (<[j := pg']> doc !! j = Some pg') as Hpg' by (by apply list_lookup_insert_eq).
  assert (forall d p, d !! j = Some p ->
            (Re.search doc_pattern (page_text p) = None \/
             Re.search gst_pattern (page_text p) = None) ->
            process_page P src_pdf d gstin_filter j st w =
              (get_text P d j ;;;
               ret (if nonempty (invoice_pages st)
                    then Locals (invoice_pages st ++ [j]) (invoice_data st) (split_files st)
                    else st)) w) as Hstep.
  { intros d p Hp Hnone. unfold process_page, get_text, bind, index, ret.
    destruct (lib_call P w) as [[e|[]] w1]; [done|]. rewrite Hp. cbv beta iota.
    destruct Hnone as [-> | ->]; [by destruct (nonempty _)|].
    destruct (Re.search doc_pattern (page_text p)); by destruct (nonempty _). }
  assert (Re.search doc_pattern (page_text pg) = None \/
          Re.search gst_pattern (page_text pg) = None) as Hnone.
  { destruct Hone as [[_ ?]|[? _]]; auto. }
  split; [|split].
  - unfold marker. destruct Hnone as [-> | ->]; [done|].
    by destruct (Re.search doc_pattern (page_text pg)).
  - by apply (Hstep doc pg).
  - rewrite (Hstep doc pg), (Hstep (<[j := pg']> doc) pg') by auto.
    unfold get_text, bind, index. destruct (lib_call P w) as [[e|[]] w1]; [done|].
    by rewrite Hpg, Hpg'.
Qed.

Lemma one_pattern_page_is_no_marker_witness :
  let pg := sample_page "Document No. : A1 but no recipient line" 1 in
  let pg' := sample_page "terms and conditions" 0 in
  let st := Locals [0%nat] [py "A0"; py "g0"] [] in
  let w := sample_world sample_plain_doc in
  marker (page_text pg) = None /\
  process_page sample_platform true sample_plain_doc None 1 st w =
    (get_text sample_platform sample_plain_doc 1 ;;;
     ret (Locals [0%nat; 1%nat] [py "A0"; py "g0"] [])) w /\
  process_page sample_platform true (<[1%nat := pg']> sample_plain_doc) None 1 st w =
    process_page sample_platform true sample_plain_doc None 1 st w.
Proof.
  intros pg pg' st w.
  apply (one_pattern_page_is_no_marker sample_platform true sample_plain_doc None 1
           pg pg' st w).
  - reflexivity.
  - left. split; [|vm_compute; reflexivity]. eexists. vm_compute. reflexivity.
  - vm_compute. reflexivity.
  - vm_compute. reflexivity.
Defined.

(** C10: when two marker pages capture the same document id and GSTIN and
    the GSTIN passes the filter, a run that returns lists the same file name
    for both, earlier invoice first, and saved both to the same path; when no
    later passing invoice has that file name, the file on disk at the end
    holds the later invoice's pages and nothing else. *)
Theorem repeated_invoice_overwrites
    (P : platform) (path : pystr) (gstin_filter : option pystr)
    (doc : list page) (w w' : world) (files : list pystr)
    (i j mi mj : nat) (pgi pgj : page) (id gstin : pystr) :
  disk w !! path = Some (Pdf doc) ->
  split_invoices P path gstin_filter w = (inr files, w') ->
  (i < j)%nat ->
  marker_positions doc !! i = Some mi ->
  marker_positions doc !! j = Some mj ->
  doc !! mi = Some pgi ->
  doc !! mj = Some pgj ->
  marker (page_text pgi) = Some (id, gstin) ->
  marker (page_text pgj) = Some (id, gstin) ->
  filter_passes P gstin_filter gstin = true ->
  let name := secure_filename P (id ++ py "_" ++ gstin ++ py ".pdf") in
  let out_path := path_join OUTPUT_FOLDER name in
  let pages_i := slice doc mi (default (length doc) (marker_positions doc !! S i)) in
  let pages_j := slice doc mj (default (length doc) (marker_positions doc !! S j)) in
  (exists outs k1 k2,
     saved w' = saved w ++ outs /\ (k1 < k2)%nat /\
     files !! k1 = Some name /\ files !! k2 = Some name /\
     outs !! k1 = Some (out_path, pages_i) /\
     outs !! k2 = Some (out_path, pages_j)) /\
  ((forall l ml pgl id' gstin',
      (j < l)%nat ->
      marker_positions doc !! l = Some ml -> doc !! ml = Some pgl ->
      marker (page_text pgl) = Some (id', gstin') ->
      filter_passes P gstin_filter gstin' = true ->
      secure_filename P (id' ++ py "_" ++ gstin' ++ py ".pdf") <> name) ->
   disk w' !! out_path = Some (Pdf pages_j)).
Proof.
  intros Hd Hrun Hij Hmi Hmj Hpgi Hpgj Hmki Hmkj Hpass name out_path pages_i pages_j.
  destruct (split_invoices_spec P doc gstin_filter path w _ _ Hd Hrun)
    as (_ & _ & Hfiles & Hsaved & Hdisk & _).
  destruct (invoices_lookup doc i mi Hmi) as (pg & a & g & Hpg & Hmk & Hi).
  rewrite Hpgi in Hpg. injection Hpg as <-. rewrite Hmki in Hmk. injection Hmk as <- <-.
  destruct (invoices_lookup doc j mj Hmj) as (pg & a & g & Hpg & Hmk & Hj).
  rewrite Hpgj in Hpg. injection Hpg as <-. rewrite Hmkj in Hmk. injection Hmk as <- <-.
  destruct (passing_two P gstin_filter (invoices doc) i j _ _ Hij Hi Hj Hpass Hpass)
    as (l1 & l2 & Hp).
  rewrite Hp in Hfiles, Hsaved, Hdisk.
  set (xi := (id, gstin, seq mi (default (length doc) (marker_positions doc !! S i) - mi)))
    in *.
  set (xj := (id, gstin, seq mj (default (length doc) (marker_positions doc !! S j) - mj)))
    in *.
  set (l3 := passing P gstin_filter (drop (S j) (invoices doc))) in *.
  assert (invoice_output P doc xi = (out_path, pages_i)) as Hoi.
  { unfold invoice_output, xi, inv_pages. simpl. by rewrite copy_pages_seq. }
  assert (invoice_output P doc xj = (out_path, pages_j)) as Hoj.
  { unfold invoice_output, xj, inv_pages. simpl. by rewrite copy_pages_seq. }
  assert (l1 ++ xi :: l2 ++ xj :: l3 = (l1 ++ xi :: l2) ++ xj :: l3) as Hre.
  { by rewrite <- app_assoc. }
  split.
  - exists (map (invoice_output P doc) (l1 ++ xi :: l2 ++ xj :: l3)),
           (length l1), (length (l1 ++ xi :: l2)).
    split; [done|]. split; [rewrite length_app; simpl; lia|].
    rewrite Hfiles, !lookup_map.
    rewrite list_lookup_middle by done. rewrite Hre.
    rewrite list_lookup_middle by done. simpl. by rewrite Hoi, Hoj.
  - intros Hlater. rewrite Hdisk.
    rewrite Hre, map_app. cbn [map]. rewrite Hoj.
    apply disk_after_last. intros k o Ho.
    rewrite lookup_map in Ho. destruct (l3 !! k) as [[[a g] ps]|] eqn:Hk; [|done].
    injection Ho as <-. simpl.
    apply list_elem_of_lookup_2 in Hk. apply list_elem_of_filter in Hk as [Hpa Hin].
    apply list_elem_of_lookup_1 in Hin as [k' Hk']. rewrite lookup_drop in Hk'.
    destruct (invoice_position doc _ _ _ _ Hk') as (ml & pgl & Hml & Hpgl & Hmkl).
    intros Heq%path_join_output_inj. revert Heq.
    apply (Hlater (S j + k')%nat ml pgl a g); auto with lia.
Qed.

Lemma repeated_invoice_overwrites_witness :
  let w := sample_world sample_repeat_doc in
  let run := split_invoices sample_platform (py "uploads/in.pdf") None w in
  (exists outs k1 k2,
     saved run.2 = [] ++ outs /\ (k1 < k2)%nat /\
     returned run !! k1 = Some (py "A1_g1.pdf") /\
     returned run !! k2 = Some (py "A1_g1.pdf") /\
     outs !! k1 = Some (py "split_invoices/A1_g1.pdf", slice sample_repeat_doc 0 2) /\
     outs !! k2 = Some (py "split_invoices/A1_g1.pdf", slice sample_repeat_doc 3 5)) /\
  disk run.2 !! py "split_invoices/A1_g1.pdf" = Some (Pdf (slice sample_repeat_doc 3 5)).
Proof.
  intros w run.
  pose proof (repeated_invoice_overwrites sample_platform (py "uploads/in.pdf") None
                sample_repeat_doc w run.2 (returned run) 0 2 0 3
                (sample_page "Document No. : A1 Recipient : GSTIN : g1" 0)
                (sample_page "Document No. : A1 Recipient : GSTIN : g1" 3)
                (py "A1") (py "g1")) as H.
  destruct H as [H1 H2]; try (vm_compute; reflexivity); [lia|].
  split; [exact H1|]. apply H2.
  intros l ml pgl id' gstin' Hl Hml. exfalso.
  destruct l as [|[|[|l]]]; try lia. vm_compute in Hml. discriminate.
Defined.

(** * Further properties of the code *)

(** ** Saves and the disk *)

Section DiskFacts.

Lemma last_saved_snoc p (outs : list (pystr * list page)) o :
  last_saved p (outs ++ [o]) = if pystr_eqb o.1 p then Some o.2 else last_saved p outs.
Proof.
  induction outs as [|o' outs IH]; simpl.
  - by destruct (pystr_eqb o.1 p).
  - rewrite IH. destruct (pystr_eqb o.1 p); [done|]. by destruct (last_saved p outs).
Qed.

(** At each path the disk holds what was saved there last, or what it held
    before. *)
Lemma disk_after_spec d (outs : list (pystr * list page)) p :
  disk_after d outs !! p =
    match last_saved p outs with Some pages => Some (Pdf pages) | None => d !! p end.
Proof.
  induction outs as [|o outs IH] using rev_ind; [done|].
  rewrite <- disk_after_app, last_saved_snoc. cbn [disk_after foldl].
  unfold pystr_eqb. destruct (decide (o.1 = p)) as [<-|Hne].
  - by rewrite bool_decide_eq_true_2, lookup_insert_eq.
  - rewrite bool_decide_eq_false_2 by done. rewrite lookup_insert_ne by done. apply IH.
Qed.

Lemma disk_after_twice d (outs : list (pystr * list page)) :
  disk_after (disk_after d outs) outs = disk_after d outs.
Proof.
  apply map_eq. intros p. rewrite !disk_after_spec.
  by destruct (last_saved p outs).
Qed.

Lemma last_saved_some p (outs : list (pystr * list page)) k o :
  outs !! k = Some o -> o.1 = p -> is_Some (last_saved p outs).
Proof.
  revert k. induction outs as [|o' outs IH]; intros [|k] Hk Hp; simplify_eq/=.
  - destruct (last_saved o.1 outs); [eauto|].
    unfold pystr_eqb. rewrite bool_decide_eq_true_2 by done. eauto.
  - destruct (IH k Hk eq_refl) as [pages ->]. eauto.
Qed.

Lemma last_saved_none p (outs : list (pystr * list page)) :
  (forall k o, outs !! k = Some o -> o.1 <> p) -> last_saved p outs = None.
Proof.
  induction outs as [|o outs IH]; intros H; simpl; [done|].
  rewrite IH by (intros k; apply (H (S k))).
  unfold pystr_eqb. rewrite bool_decide_eq_false_2; [done|]. apply (H 0%nat o eq_refl).
Qed.

End DiskFacts.

(** ** More about runs of [split_invoices] *)

Section MoreRunFacts.

Variable P : platform.

(** A run can only return when [fitz.open] reads a document at its input
    path, and then it has saved the passing invoices of that document; there
    are none when the document is no PDF. *)
Lemma split_invoices_inr path gstin_filter w files w' :
  split_invoices P path gstin_filter w = (inr files, w') ->
  exists content src,
    disk w !! path = Some content /\ fitz_view P content = Some src /\
    files = map (invoice_filename P) (passing P gstin_filter (invoices (doc_pages src))) /\
    saved w' =
      saved w ++ map (invoice_output P (doc_pages src))
                   (passing P gstin_filter (invoices (doc_pages src))) /\
    disk w' =
      disk_after (disk w)
        (map (invoice_output P (doc_pages src))
           (passing P gstin_filter (invoices (doc_pages src)))) /\
    open_docs w' = open_docs w.
Proof.
  intros Hrun.
  assert (~ forall content, disk w !! path = Some content -> fitz_view P content = None)
    as Hsome.
  { intros Hno.
    by destruct (split_invoices_unread P gstin_filter path w _ w' Hno Hrun)
      as (_ & _ & _ & e & ? & _). }
  destruct (disk w !! path) as [content|] eqn:Hd; [|by destruct Hsome].
  destruct (fitz_view P content) as [[[] doc]|] eqn:Hv.
  - destruct (split_invoices_read P doc gstin_filter content path w _ _ Hd Hv Hrun)
      as (Ho & _ & Hf & Hs & Hk & _).
    exists content, (Document true doc). auto 7.
  - destruct (split_invoices_foreign P doc gstin_filter content path w _ _ Hd Hv Hrun)
      as (Ho & _ & Hs & Hk & -> & Hnone & _).
    exists content, (Document false doc). cbn [doc_pages]. rewrite Hnone. simpl.
    rewrite app_nil_r. auto 7.
  - destruct Hsome. by intros ? [= <-].
Qed.

Lemma sublist_map {A B} (f : A -> B) (l1 l2 : list A) :
  sublist l1 l2 -> sublist (map f l1) (map f l2).
Proof. induction 1; simpl; by constructor. Qed.

Lemma output_path_of (doc : list page) (l : list invoice) k o :
  map (invoice_output P doc) l !! k = Some o ->
  exists name, map (invoice_filename P) l !! k = Some name /\
               o.1 = path_join OUTPUT_FOLDER name.
Proof.
  rewrite !lookup_map. destruct (l !! k) as [i|]; [|done]. intros [= <-]. eauto.
Qed.

Lemma output_of_name (doc : list page) (l : list invoice) k name :
  map (invoice_filename P) l !! k = Some name ->
  exists o, map (invoice_output P doc) l !! k = Some o /\
            o.1 = path_join OUTPUT_FOLDER name.
Proof.
  rewrite !lookup_map. destruct (l !! k) as [i|]; [|done]. intros [= <-]. eauto.
Qed.

End MoreRunFacts.

(** X1: for any filter, a run that returns has saved exactly the invoices
    whose captured GSTIN passes the filter, in document order, where the
    invoices are the blocks from one marker page up to the next; the names it
    returns are theirs, and the disk is the old disk with these saves made. *)
Theorem split_invoices_saves_passing_invoices
    (P : platform) (path : pystr) (gstin_filter : option pystr)
    (doc : list page) (w w' : world) (files : list pystr) :
  disk w !! path = Some (Pdf doc) ->
  split_invoices P path gstin_filter w = (inr files, w') ->
  exists invs,
    Forall2 (invoice_of_block doc) (blocks (marker_positions doc) (length doc)) invs /\
    files = map (invoice_filename P) (passing P gstin_filter invs) /\
    saved w' = saved w ++ map (invoice_output P doc) (passing P gstin_filter invs) /\
    disk w' = disk_after (disk w) (map (invoice_output P doc) (passing P gstin_filter invs)).
Proof.
  intros Hd Hrun.
  destruct (split_invoices_spec P doc gstin_filter path w _ _ Hd Hrun)
    as (_ & _ & Hfiles & Hsaved & Hdisk & _).
  exists (invoices doc). split; [apply invoices_blocks|]. auto.
Qed.

Lemma split_invoices_saves_passing_invoices_witness :
  let w := sample_world sample_doc in
  let run := split_invoices sample_platform (py "uploads/in.pdf") (Some (py "g2")) w in
  returned run = [py "A2_G2.pdf"] /\
  exists invs,
    Forall2 (invoice_of_block sample_doc)
      (blocks (marker_positions sample_doc) (length sample_doc)) invs /\
    returned run =
      map (invoice_filename sample_platform) (passing sample_platform (Some (py "g2")) invs) /\
    saved run.2 =
      saved w ++ map (invoice_output sample_platform sample_doc)
                   (passing sample_platform (Some (py "g2")) invs) /\
    disk run.2 =
      disk_after (disk w)
        (map (invoice_output sample_platform sample_doc)
           (passing sample_platform (Some (py "g2")) invs)).
Proof.
  intros w run. split; [vm_compute; reflexivity|].
  apply (split_invoices_saves_passing_invoices sample_platform (py "uploads/in.pdf")
           (Some (py "g2")) sample_doc w run.2 (returned run)).
  - vm_compute. reflexivity.
  - vm_compute. reflexivity.
Defined.

(** X2: a filter only leaves invoices out. From the same world, the names
    returned and the files saved with a filter are sub-sequences, in the same
    order and with the same contents, of those returned and saved without
    one. *)
Theorem filtered_run_is_part_of_unfiltered_run
    (P : platform) (path : pystr) (gstin_filter : option pystr) (w : world)
    (wf wn : world) (files_f files_n : list pystr) :
  split_invoices P path gstin_filter w = (inr files_f, wf) ->
  split_invoices P path None w = (inr files_n, wn) ->
  sublist files_f files_n /\
  exists outs_f outs_n,
    saved wf = saved w ++ outs_f /\ saved wn = saved w ++ outs_n /\
    sublist outs_f outs_n.
Proof.
  intros Hf Hn.
  destruct (split_invoices_inr P _ _ _ _ _ Hf) as (content & src & Hd & Hv & -> & Hsf & _).
  destruct (split_invoices_inr P _ _ _ _ _ Hn) as (? & src' & Hd' & Hv' & -> & Hsn & _).
  rewrite Hd in Hd'. injection Hd' as <-. rewrite Hv in Hv'. injection Hv' as <-.
  rewrite (passing_all P None) in Hsn |- * by auto.
  split; [apply sublist_map, sublist_filter|].
  eexists _, _. do 2 (split; [eassumption|]). apply sublist_map, sublist_filter.
Qed.

Lemma filtered_run_is_part_of_unfiltered_run_witness :
  let w := sample_world sample_doc in
  let run_f := split_invoices sample_platform (py "uploads/in.pdf") (Some (py "g2")) w in
  let run_n := split_invoices sample_platform (py "uploads/in.pdf") None w in
  returned run_f = [py "A2_G2.pdf"] /\
  returned run_n = [py "A1_g1.pdf"; py "A2_G2.pdf"] /\
  sublist (returned run_f) (returned run_n) /\
  exists outs_f outs_n,
    saved run_f.2 = saved w ++ outs_f /\ saved run_n.2 = saved w ++ outs_n /\
    sublist outs_f outs_n.
Proof.
  intros w run_f run_n. do 2 (split; [vm_compute; reflexivity|]).
  apply (filtered_run_is_part_of_unfiltered_run sample_platform (py "uploads/in.pdf")
           (Some (py "g2")) w run_f.2 run_n.2 (returned run_f) (returned run_n)).
  - vm_compute. reflexivity.
  - vm_compute. reflexivity.
Defined.

(** X3: a run that returns has a PDF on disk under every name it returns, has
    changed no file other than those, and has left no document open; the
    input file is among the unchanged ones unless an output was saved over
    it. *)
Theorem split_invoices_touches_only_outputs
    (P : platform) (path : pystr) (gstin_filter : option pystr)
    (w w' : world) (files : list pystr) :
  split_invoices P path gstin_filter w = (inr files, w') ->
  (forall k name,
     files !! k = Some name ->
     exists pages, disk w' !! path_join OUTPUT_FOLDER name = Some (Pdf pages)) /\
  (forall p,
     (forall k name, files !! k = Some name -> path_join OUTPUT_FOLDER name <> p) ->
     disk w' !! p = disk w !! p) /\
  open_docs w' = open_docs w.
Proof.
  intros Hrun.
  destruct (split_invoices_inr P _ _ _ _ _ Hrun) as (content & [pdf doc] & _ & _ & H).
  cbn [doc_pages] in H. destruct H as (-> & _ & Hdisk & Ho).
  split; [|split; [|done]].
  - intros k name Hk. rewrite Hdisk, disk_after_spec.
    destruct (output_of_name P doc _ _ _ Hk) as (o & Ho' & Hp).
    destruct (last_saved_some _ _ _ _ Ho' Hp) as [pages ->]. eauto.
  - intros p Hp. rewrite Hdisk, disk_after_spec, last_saved_none; [done|].
    intros k o Hk Heq. destruct (output_path_of P doc _ _ _ Hk) as (name & Hn & Hpath).
    apply (Hp k name Hn). congruence.
Qed.

Lemma split_invoices_touches_only_outputs_witness :
  let w := sample_world sample_doc in
  let run := split_invoices sample_platform (py "uploads/in.pdf") None w in
  (forall k name,
     returned run !! k = Some name ->
     exists pages, disk run.2 !! path_join OUTPUT_FOLDER name = Some (Pdf pages)) /\
  (forall p,
     (forall k name, returned run !! k = Some name -> path_join OUTPUT_FOLDER name <> p) ->
     disk run.2 !! p = disk w !! p) /\
  open_docs run.2 = open_docs w.
Proof.
  intros w run.
  apply (split_invoices_touches_only_outputs sample_platform (py "uploads/in.pdf") None
           w run.2 (returned run)).
  vm_compute. reflexivity.
Defined.

(** X4: when a run raises, either a library call made during the run failed
    and the run raised what that call raised, or the input path holds no PDF
    file and nothing was saved: the exception is then the one [fitz.open]
    raises for a missing or an unreadable file, or the one [insert_pdf]
    raises for a source that is a document but no PDF. No exception comes
    from the run's own indexing of [invoice_data] or of the document. *)
Theorem split_invoices_raises_only_on_failure
    (P : platform) (path : pystr) (gstin_filter : option pystr)
    (w w' : world) (e : exn) :
  split_invoices P path gstin_filter w = (inl e, w') ->
  (exists n, (clock w <= n < clock w')%nat /\ fault P n = Some e) \/
  ((forall doc, disk w !! path <> Some (Pdf doc)) /\
   (e = FileDataError \/ e = FileNotFoundError \/ e = SourceNotPdf) /\
   disk w' = disk w /\ saved w' = saved w).
Proof.
  intros Hrun.
  assert (forall e, failed P w w' e ->
            exists n, (clock w <= n < clock w')%nat /\ fault P n = Some e) as Hfail.
  { intros e0 (Hlt & Hf & _). exists (clock w' - 1)%nat. split; [lia | done]. }
  assert ((forall content, disk w !! path = Some content -> fitz_view P content = None) ->
          (exists n, (clock w <= n < clock w')%nat /\ fault P n = Some e) \/
          ((forall doc, disk w !! path <> Some (Pdf doc)) /\
           (e = FileDataError \/ e = FileNotFoundError \/ e = SourceNotPdf) /\
           disk w' = disk w /\ saved w' = saved w)) as Hunread.
  { intros Hno.
    destruct (split_invoices_unread P gstin_filter path w _ w' Hno Hrun)
      as (_ & Hs & Hk & e0 & [= <-] & [Hf|(_ & _ & He)]); [left; by apply Hfail|].
    right. split; [|split; [tauto | done]].
    intros doc Hd. by specialize (Hno _ Hd). }
  destruct (disk w !! path) as [content|] eqn:Hd; [|by apply Hunread].
  destruct (fitz_view P content) as [[[] doc]|] eqn:Hv.
  - left. apply Hfail.
    by destruct (split_invoices_read P doc gstin_filter content path w _ _ Hd Hv Hrun)
      as (_ & _ & ? & _).
  - destruct (split_invoices_foreign P doc gstin_filter content path w _ _ Hd Hv Hrun)
      as (_ & _ & Hs & Hk & [Hf|(_ & -> & _)]); [left; by apply Hfail|].
    right. split; [|auto]. intros doc' [= ->]. discriminate.
  - apply Hunread. by intros ? [= <-].
Qed.

Lemma split_invoices_raises_only_on_failure_witness :
  let w := sample_world sample_doc in
  let run := split_invoices sample_faulty_platform (py "uploads/in.pdf") None w in
  run.1 = inl (LibraryError 5) /\
  ((exists n, (clock w <= n < clock run.2)%nat /\
      fault sample_faulty_platform n = Some (LibraryError 5)) \/
   ((forall doc, disk w !! py "uploads/in.pdf" <> Some (Pdf doc)) /\
    (LibraryError 5 = FileDataError \/ LibraryError 5 = FileNotFoundError \/
     LibraryError 5 = SourceNotPdf) /\
    disk run.2 = disk w /\ saved run.2 = saved w)).
Proof.
  intros w run. split; [vm_compute; reflexivity|].
  apply (split_invoices_raises_only_on_failure sample_faulty_platform
           (py "uploads/in.pdf") None w run.2 (LibraryError 5)).
  vm_compute. reflexivity.
Defined.

(** X5: nothing is rolled back when a run raises. The files it saved before
    raising are the first few of those the run saves when no call fails, with
    the same contents, and they stay on disk. *)
Theorem split_invoices_failure_keeps_saved_files
    (P : platform) (path : pystr) (gstin_filter : option pystr)
    (doc : list page) (w w' : world) (e : exn) :
  disk w !! path = Some (Pdf doc) ->
  split_invoices P path gstin_filter w = (inl e, w') ->
  exists files0 w0 outs0 k,
    split_invoices (without_faults P) path gstin_filter w = (inr files0, w0) /\
    saved w0 = saved w ++ outs0 /\
    saved w' = saved w ++ take k outs0 /\
    disk w' = disk_after (disk w) (take k outs0).
Proof.
  intros Hd Hrun.
  destruct (split_invoices_spec P doc gstin_filter path w _ _ Hd Hrun)
    as (_ & _ & _ & k & Hs & Hk).
  destruct (split_invoices_returns (without_faults P) path gstin_filter doc w Hd)
    as (files0 & w0 & Hrun0); [done|].
  destruct (split_invoices_spec (without_faults P) doc gstin_filter path w _ _ Hd Hrun0)
    as (_ & _ & _ & Hs0 & _).
  exists files0, w0, (map (invoice_output P doc) (passing P gstin_filter (invoices doc))), k.
  auto.
Qed.

Lemma split_invoices_failure_keeps_saved_files_witness :
  let w := sample_world sample_repeat_doc in
  let P := Platform ascii_upper ascii_lower (fun s => s) sample_reads (fun p => p)
             (fun n => if (n =? 9)%nat then Some (LibraryError 5) else None) in
  let run := split_invoices P (py "uploads/in.pdf") None w in
  run.1 = inl (LibraryError 5) /\
  saved run.2 = [(py "split_invoices/A1_g1.pdf", slice sample_repeat_doc 0 2)] /\
  exists files0 w0 outs0 k,
    split_invoices (without_faults P) (py "uploads/in.pdf") None w = (inr files0, w0) /\
    saved w0 = saved w ++ outs0 /\
    saved run.2 = saved w ++ take k outs0 /\
    disk run.2 = disk_after (disk w) (take k outs0).
Proof.
  intros w P run. do 2 (split; [vm_compute; reflexivity|]).
  apply (split_invoices_failure_keeps_saved_files P (py "uploads/in.pdf") None
           sample_repeat_doc w run.2 (LibraryError 5)).
  - vm_compute. reflexivity.
  - vm_compute. reflexivity.
Defined.

(** X6: running again changes nothing on disk. If the input file is as it was
    after a first run that returned, a second run on it that returns gives the
    same names and leaves the disk exactly as the first run left it. *)
Theorem split_invoices_again_same_disk
    (P : platform) (path : pystr) (gstin_filter : option pystr)
    (w w1 w2 : world) (files1 files2 : list pystr) :
  split_invoices P path gstin_filter w = (inr files1, w1) ->
  disk w1 !! path = disk w !! path ->
  split_invoices P path gstin_filter w1 = (inr files2, w2) ->
  files2 = files1 /\ disk w2 = disk w1.
Proof.
  intros H1 Hsame H2.
  destruct (split_invoices_inr P _ _ _ _ _ H1)
    as (content & src & Hd & Hv & -> & _ & Hdisk1 & _).
  destruct (split_invoices_inr P _ _ _ _ _ H2)
    as (? & src' & Hd' & Hv' & -> & _ & Hdisk2 & _).
  rewrite Hsame, Hd in Hd'. injection Hd' as <-. rewrite Hv in Hv'. injection Hv' as <-.
  split; [done|]. rewrite Hdisk2, Hdisk1. apply disk_after_twice.
Qed.

Lemma split_invoices_again_same_disk_witness :
  let w := sample_world sample_repeat_doc in
  let run1 := split_invoices sample_platform (py "uploads/in.pdf") None w in
  let run2 := split_invoices sample_platform (py "uploads/in.pdf") None run1.2 in
  returned run2 = returned run1 /\ disk run2.2 = disk run1.2.
Proof.
  intros w run1 run2.
  apply (split_invoices_again_same_disk sample_platform (py "uploads/in.pdf") None
           w run1.2 run2.2 (returned run1) (returned run2)).
  - vm_compute. reflexivity.
  - vm_compute. reflexivity.
  - vm_compute. reflexivity.
Defined.

(** X7: what the two searches of a page capture. A text is a marker page
    with captures [id] and [gstin] exactly when [id] is the token at the
    leftmost place that reads [Document No], one character that is no line
    feed, [ : ] and a token, and [gstin] is the token at the leftmost place
    that reads [Recipient], [:], [GSTIN], [:] with whitespace in each gap and
    then a token. Both captures are non-empty and free of whitespace. *)
Theorem marker_captures (text id gstin : pystr) :
  (marker text = Some (id, gstin) <->
   leftmost doc_shape text id /\ leftmost gst_shape text gstin) /\
  (marker text = Some (id, gstin) -> token id /\ token gstin).
Proof.
  split; [apply marker_spec|].
  intros [Hd Hg]%marker_spec.
  destruct Hd as (? & ? & _ & (? & ? & _ & _ & (? & _ & Hid & _)) & _).
  destruct Hg as (? & ? & _ & (? & ? & ? & ? & ? & _ & _ & _ & _ & _ & (? & _ & Hgs & _)) & _).
  done.
Qed.

Lemma marker_captures_witness :
  let text := py "Document No. : INV-7 Recipient : GSTIN : 27ABCDE1234F1Z5" in
  marker text = Some (py "INV-7", py "27ABCDE1234F1Z5") /\
  token (py "INV-7") /\ token (py "27ABCDE1234F1Z5").
Proof.
  intros text.
  assert (marker text = Some (py "INV-7", py "27ABCDE1234F1Z5")) as Hm
    by (vm_compute; reflexivity).
  split; [exact Hm|].
  exact (proj2 (marker_captures text (py "INV-7") (py "27ABCDE1234F1Z5")) Hm).
Defined.

(** ** The download endpoint *)

Lemma download_file_run (P : platform) (name : pystr) (w : world) :
  exists rep w',
    download_file P name w = (inr rep, w') /\
    disk w' = disk w /\ saved w' = saved w /\ open_docs w' = open_docs w /\
    rep = match fault P (clock w),
                disk w !! in_root_path P (path_join OUTPUT_FOLDER name) with
          | None, Some content => Attachment name content
          | _, _ => Json (Response 404 (error_body "File not found"))
          end.
Proof.
  unfold download_file, try_except, send_file, bind, lib_call, get_disk. simpl.
  destruct (fault P (clock w)); simpl; [eauto 10|].
  destruct (disk w !! in_root_path P (path_join OUTPUT_FOLDER name)); simpl; eauto 10.
Qed.

(** X8: [download_file] always answers and never raises; it changes neither
    the disk nor the saves nor the open documents. It sends the file at the
    output folder's path for the name, taken relative to the application's
    root path, under that name, when the file is there and the call does not
    fail; in every other case, a failing call included, it answers 404 with
    the message "File not found". *)
Theorem download_file_answers (P : platform) (name : pystr) (w : world) :
  exists rep w',
    download_file P name w = (inr rep, w') /\
    disk w' = disk w /\ saved w' = saved w /\ open_docs w' = open_docs w /\
    rep = match fault P (clock w),
                disk w !! in_root_path P (path_join OUTPUT_FOLDER name) with
          | None, Some content => Attachment name content
          | _, _ => Json (Response 404 (error_body "File not found"))
          end.
Proof. apply download_file_run. Qed.

(** X9: what a run saved can be downloaded when the application's root path
    is its working directory, so that Flask looks for the file where the run
    saved it. Then, after a run that returned, asking for a returned name,
    when no later returned name is the same and the call does not fail, sends
    exactly the PDF the run saved for that entry. *)
Theorem download_sends_saved_invoice
    (P : platform) (path : pystr) (gstin_filter : option pystr)
    (w w' : world) (files : list pystr) (k : nat) (name : pystr) :
  in_root_path P (path_join OUTPUT_FOLDER name) = path_join OUTPUT_FOLDER name ->
  split_invoices P path gstin_filter w = (inr files, w') ->
  files !! k = Some name ->
  (forall k', (k < k')%nat -> files !! k' <> Some name) ->
  fault P (clock w') = None ->
  exists outs pages w'',
    saved w' = saved w ++ outs /\
    outs !! k = Some (path_join OUTPUT_FOLDER name, pages) /\
    download_file P name w' = (inr (Attachment name (Pdf pages)), w'').
Proof.
  intros Hroot Hrun Hk Hlater Hq.
  destruct (split_invoices_inr P _ _ _ _ _ Hrun) as (content & [pdf doc] & _ & _ & H).
  cbn [doc_pages] in H. destruct H as (-> & Hsaved & Hdisk & _).
  rewrite lookup_map in Hk.
  destruct (passing P gstin_filter (invoices doc) !! k) as [inv|] eqn:Hinv; [|done].
  injection Hk as <-.
  exists (map (invoice_output P doc) (passing P gstin_filter (invoices doc))),
         (copy_pages doc (inv_pages inv)).
  destruct (download_file_run P (invoice_filename P inv) w')
    as (rep & w'' & Hdl & _ & _ & _ & Hrep).
  exists w''. split; [done|]. split; [by rewrite lookup_map, Hinv|].
  rewrite Hdl, Hrep, Hq, Hroot, Hdisk.
  change (path_join OUTPUT_FOLDER (invoice_filename P inv)) with (invoice_path P inv).
  rewrite (disk_after_lookup P doc (disk w) _ k inv Hinv); [done|].
  intros k' y Hk' Hy Heq. apply (Hlater k' Hk'). rewrite lookup_map, Hy. simpl.
  congruence.
Qed.

Lemma download_sends_saved_invoice_witness :
  let w := sample_world sample_repeat_doc in
  let run := split_invoices sample_platform (py "uploads/in.pdf") None w in
  exists outs pages w'',
    saved run.2 = saved w ++ outs /\
    outs !! 2%nat = Some (path_join OUTPUT_FOLDER (py "A1_g1.pdf"), pages) /\
    download_file sample_platform (py "A1_g1.pdf") run.2 =
      (inr (Attachment (py "A1_g1.pdf") (Pdf pages)), w'').
Proof.
  intros w run.
  apply (download_sends_saved_invoice sample_platform (py "uploads/in.pdf") None
           w run.2 (returned run) 2 (py "A1_g1.pdf")).
  - reflexivity.
  - vm_compute. reflexivity.
  - vm_compute. reflexivity.
  - intros [|[|[|k']]] Hk'; try lia; vm_compute; discriminate.
  - reflexivity.
Defined.

(** ** The upload endpoint, past its checks *)

Section UploadRunFacts.

Variable P : platform.

Lemma bind_ret_inv {A B} (m : M A) (f : A -> B) w b w' :
  bind m (fun a => ret (f a)) w = (inr b, w') -> exists a, b = f a.
Proof.
  unfold bind, ret. destruct (m w) as [[e|a] w1]; [done|]. intros [= <- _]. eauto.
Qed.

(** Past the checks, the body of [upload_pdf] either raises or answers 200. *)
Lemma upload_pdf_try_cases req w :
  match multidict_get (py "file") (files req) with
  | None => upload_pdf_try P req w = (inr (Response 400 (error_body "No file part")), w)
  | Some file =>
      if decide (filename file = []) then
        upload_pdf_try P req w = (inr (Response 400 (error_body "No selected file")), w)
      else
        (~ has_allowed_extension P (filename file) /\
         upload_pdf_try P req w =
           (inr (Response 400
                   (error_body "Invalid file type. Only PDF and ZIP files are allowed.")),
            w)) \/
        (has_allowed_extension P (filename file) /\
         forall resp w', upload_pdf_try P req w = (inr resp, w') -> status resp = 200%nat)
  end.
Proof.
  destruct (multidict_get (py "file") (files req)) as [file|] eqn:Hfile.
  2: { unfold upload_pdf_try. by rewrite Hfile. }
  destruct (decide (filename file = [])) as [Hn|Hn].
  { unfold upload_pdf_try, pystr_eqb. rewrite Hfile. by rewrite bool_decide_eq_true_2. }
  destruct (allowed_file_spec P (filename file) w) as (b & Hb & Hiff).
  assert (forall r, upload_pdf_try P req w = r ->
            (b = false /\
             r = (inr (Response 400
                         (error_body "Invalid file type. Only PDF and ZIP files are allowed.")),
                  w)) \/
            (b = true /\ forall resp w', r = (inr resp, w') -> status resp = 200%nat)) as Hr.
  { intros r. unfold upload_pdf_try, pystr_eqb. rewrite Hfile.
    rewrite bool_decide_eq_false_2 by done. unfold bind at 1. rewrite Hb.
    destruct b; cbn [negb]; intros <-.
    - right. split; [done|]. intros resp w' Hrun. unfold bind at 1 in Hrun.
      destruct (write_file P _ _ w) as [[e|[]] w1]; [done|].
      apply bind_ret_inv in Hrun as [a ->]. done.
    - by left. }
  destruct (Hr _ eq_refl) as [[-> ->]|[-> H200]].
  - left. split; [|done]. intros H%Hiff. done.
  - right. split; [by apply Hiff | done].
Qed.

Hypothesis quiet_platform : forall n, fault P n = None.

Lemma lib_call_quiet w :
  lib_call P w = (inr tt, World (disk w) (saved w) (open_docs w) (S (clock w))).
Proof. unfold lib_call. by rewrite quiet_platform. Qed.

Lemma write_file_quiet path data w :
  write_file P path data w =
    (inr tt, World (<[path := data]> (disk w)) (saved w) (open_docs w) (S (clock w))).
Proof. unfold write_file, bind. by rewrite lib_call_quiet. Qed.

(** [split_invoices] on a path at which [fitz.open] finds no document, when
    no call fails. *)
Lemma split_invoices_unread_quiet path gstin_filter w :
  (forall content, disk w !! path = Some content -> fitz_view P content = None) ->
  exists e,
    split_invoices P path gstin_filter w =
      (inl e, World (disk w) (saved w) (open_docs w) (S (clock w))).
Proof.
  intros Hno. unfold split_invoices, fitz_open. unfold bind at 1. unfold bind at 1.
  rewrite lib_call_quiet. simpl.
  destruct (disk w !! path) as [content|] eqn:Hd; [rewrite (Hno _ eq_refl)|]; eauto.
Qed.

(** [split_invoices] on a path whose file [fitz.open] reads as a document
    that is no PDF, when no call fails. *)
Lemma split_invoices_foreign_quiet path gstin_filter content doc w :
  disk w !! path = Some content ->
  fitz_view P content = Some (Document false doc) ->
  exists w',
    split_invoices P path gstin_filter w =
      (if decide (passing P gstin_filter (invoices doc) = [])
       then inr [] else inl SourceNotPdf, w') /\
    saved w' = saved w /\ disk w' = disk w /\ open_docs w' = open_docs w.
Proof.
  intros Hd Hv.
  destruct (split_invoices P path gstin_filter w) as [r w'] eqn:Hrun. exists w'.
  destruct (split_invoices_foreign P doc gstin_filter content path w _ _ Hd Hv Hrun)
    as (Ho & _ & Hs & Hk & H).
  split; [|done]. f_equal. destruct r as [e|files].
  - destruct H as [(_ & Hf & _)|(_ & -> & Hne)].
    + by rewrite quiet_platform in Hf.
    + by rewrite decide_False.
  - destruct H as (-> & Hnone & _). by rewrite decide_True.
Qed.

(** [split_invoices] on a path that holds a PDF, when no call fails. *)
Lemma split_invoices_quiet path gstin_filter doc w :
  disk w !! path = Some (Pdf doc) ->
  exists w',
    split_invoices P path gstin_filter w =
      (inr (map (invoice_filename P) (passing P gstin_filter (invoices doc))), w') /\
    saved w' = saved w ++ map (invoice_output P doc) (passing P gstin_filter (invoices doc)) /\
    disk w' =
      disk_after (disk w) (map (invoice_output P doc) (passing P gstin_filter (invoices doc))) /\
    open_docs w' = open_docs w.
Proof.
  intros Hd.
  destruct (split_invoices_returns P path gstin_filter doc w Hd quiet_platform)
    as (files & w' & Hrun).
  destruct (split_invoices_spec P doc gstin_filter path w _ _ Hd Hrun)
    as (Ho & _ & -> & Hs & Hk & _).
  eauto.
Qed.

End UploadRunFacts.

(** X10: [upload_pdf] always answers and never raises, with status 200, 400
    or 500. The status is 400 exactly when the file part is missing, its file
    name is empty, or the name has no allowed extension; every upload that
    passes these checks is answered 200 or, when anything raises, 500. *)
Theorem upload_pdf_answers (P : platform) (req : request) (w : world) :
  exists resp w',
    upload_pdf P req w = (inr resp, w') /\
    (status resp = 200%nat \/ status resp = 400%nat \/ status resp = 500%nat) /\
    (status resp = 400%nat <->
     match multidict_get (py "file") (files req) with
     | None => True
     | Some file => filename file = [] \/ ~ has_allowed_extension P (filename file)
     end).
Proof.
  pose proof (upload_pdf_try_cases P req w) as H. unfold upload_pdf, try_except.
  destruct (multidict_get (py "file") (files req)) as [file|].
  2: { rewrite H. eexists _, _. split; [reflexivity|]. simpl. tauto. }
  destruct (decide (filename file = [])) as [Hn|Hn].
  { rewrite H. eexists _, _. split; [reflexivity|]. simpl. tauto. }
  destruct H as [[Hbad ->]|[Hok H200]].
  { eexists _, _. split; [reflexivity|]. simpl. tauto. }
  destruct (upload_pdf_try P req w) as [[e|resp] w'].
  - eexists _, _. split; [reflexivity|]. simpl. split; [tauto|].
    split; [discriminate|]. intros [?|?]; done.
  - specialize (H200 resp w' eq_refl). eexists _, _. split; [reflexivity|].
    rewrite H200. split; [tauto|]. split; [discriminate|]. intros [?|?]; done.
Qed.

(** X11: uploading a PDF under an allowed name that is not taken for a ZIP,
    when no call fails: the upload is written to the upload folder under its
    sanitized name and split with the [gstin] form field, stripped of
    surrounding whitespace, as filter. The answer is 200 with the names of the
    invoices (the blocks from one marker page up to the next) whose GSTIN
    passes, in order; these are saved, and the upload itself stays where it
    was written unless an output was saved over it. *)
Theorem upload_pdf_splits_the_upload
    (P : platform) (req : request) (w : world) (file : file_storage) (doc : list page) :
  (forall n, fault P n = None) ->
  multidict_get (py "file") (files req) = Some file ->
  filename file <> [] ->
  has_allowed_extension P (filename file) ->
  endswith (lower P (secure_filename P (filename file))) (py ".zip") = false ->
  stream file = Pdf doc ->
  let gstin_filter := Some (strip (default [] (multidict_get (py "gstin") (form req)))) in
  let file_path := path_join UPLOAD_FOLDER (secure_filename P (filename file)) in
  exists invs w',
    Forall2 (invoice_of_block doc) (blocks (marker_positions doc) (length doc)) invs /\
    upload_pdf P req w =
      (inr (Response 200
              [(py "message", JStr (py "Files processed successfully!"));
               (py "files", JList (map (invoice_filename P) (passing P gstin_filter invs)))]),
       w') /\
    saved w' = saved w ++ map (invoice_output P doc) (passing P gstin_filter invs) /\
    disk w' =
      disk_after (<[file_path := Pdf doc]> (disk w))
        (map (invoice_output P doc) (passing P gstin_filter invs)) /\
    open_docs w' = open_docs w.
Proof.
  intros Hq Hfile Hn Hok Hzip Hpdf gstin_filter file_path.
  destruct (allowed_file_spec P (filename file) w) as (b & Hb & Hiff).
  assert (b = true) as -> by (by apply Hiff).
  set (w1 := World (<[file_path := Pdf doc]> (disk w)) (saved w) (open_docs w) (S (clock w))).
  destruct (split_invoices_quiet P Hq file_path gstin_filter doc w1)
    as (w' & Hrun & Hs & Hd & Ho); [apply lookup_insert_eq|].
  exists (invoices doc), w'. split; [apply invoices_blocks|].
  split; [|by repeat split].
  unfold upload_pdf, try_except, upload_pdf_try, pystr_eqb. rewrite Hfile.
  rewrite bool_decide_eq_false_2 by done. unfold bind at 1. rewrite Hb. cbn [negb].
  unfold bind at 1. rewrite write_file_quiet by done. rewrite Hzip, Hpdf.
  unfold bind at 1. fold file_path. fold w1. fold gstin_filter. by rewrite Hrun.
Qed.

Lemma upload_pdf_splits_the_upload_witness :
  let req := Request [(py "file", FileStorage (py "bills.PDF") (Pdf sample_doc))]
               [(py "gstin", py "  g2 ")] in
  let w := sample_world [] in
  exists invs w',
    Forall2 (invoice_of_block sample_doc)
      (blocks (marker_positions sample_doc) (length sample_doc)) invs /\
    upload_pdf sample_platform req w =
      (inr (Response 200
              [(py "message", JStr (py "Files processed successfully!"));
               (py "files",
                JList (map (invoice_filename sample_platform)
                         (passing sample_platform (Some (py "g2")) invs)))]),
       w') /\
    saved w' =
      saved w
      ++ map (invoice_output sample_platform sample_doc)
           (passing sample_platform (Some (py "g2")) invs) /\
    disk w' =
      disk_after (<[py "uploads/bills.PDF" := Pdf sample_doc]> (disk w))
        (map (invoice_output sample_platform sample_doc)
           (passing sample_platform (Some (py "g2")) invs)) /\
    open_docs w' = open_docs w.
Proof.
  intros req w.
  apply (upload_pdf_splits_the_upload sample_platform req w
           (FileStorage (py "bills.PDF") (Pdf sample_doc)) sample_doc).
  - reflexivity.
  - reflexivity.
  - discriminate.
  - exists (py "bills"), (py "PDF"). split; [reflexivity|].
    split; [by repeat constructor | by left].
  - vm_compute. reflexivity.
  - reflexivity.
Defined.

(** X12: an upload is written to the upload folder before its content is
    looked at. When the name passes the checks and no call fails, but the
    content is not what the name announces (under a name taken for a ZIP it
    is no ZIP archive, under another name [fitz.open] reads no document in
    it), the answer is 500, nothing is saved as an invoice, and the uploaded
    file is left in the upload folder. *)
Theorem upload_pdf_keeps_unreadable_upload
    (P : platform) (req : request) (w : world) (file : file_storage) :
  (forall n, fault P n = None) ->
  multidict_get (py "file") (files req) = Some file ->
  filename file <> [] ->
  has_allowed_extension P (filename file) ->
  (if endswith (lower P (secure_filename P (filename file))) (py ".zip")
   then forall members, stream file <> Zip members
   else fitz_view P (stream file) = None) ->
  exists w',
    upload_pdf P req w =
      (inr (Response 500 (error_body "An error occurred while processing the file")), w') /\
    disk w' =
      <[path_join UPLOAD_FOLDER (secure_filename P (filename file)) := stream file]> (disk w) /\
    saved w' = saved w.
Proof.
  intros Hq Hfile Hn Hok Hbad.
  destruct (allowed_file_spec P (filename file) w) as (b & Hb & Hiff).
  assert (b = true) as -> by (by apply Hiff).
  set (file_path := path_join UPLOAD_FOLDER (secure_filename P (filename file))).
  set (w1 := World (<[file_path := stream file]> (disk w)) (saved w) (open_docs w)
                   (S (clock w))).
  unfold upload_pdf, try_except, upload_pdf_try, pystr_eqb. rewrite Hfile.
  rewrite bool_decide_eq_false_2 by done. unfold bind at 1. rewrite Hb. cbn [negb].
  unfold bind at 1. rewrite write_file_quiet by done.
  fold file_path. fold w1. unfold bind at 1.
  destruct (endswith (lower P (secure_filename P (filename file))) (py ".zip")).
  - unfold zip_open, bind, get_disk. rewrite lib_call_quiet by done. simpl.
    rewrite lookup_insert_eq.
    destruct (stream file) as [doc|members|bytes] eqn:Hs; simpl; eauto.
    by destruct (Hbad members).
  - destruct (split_invoices_unread_quiet P Hq file_path
                (Some (strip (default [] (multidict_get (py "gstin") (form req))))) w1)
      as [e ->].
    + intros content. simpl. rewrite lookup_insert_eq. by intros [= <-].
    + simpl. eauto.
Qed.

Lemma upload_pdf_keeps_unreadable_upload_witness :
  let req := Request [(py "file", FileStorage (py "notes.pdf") (Raw [1; 2; 3]))] [] in
  let w := sample_world [] in
  exists w',
    upload_pdf sample_platform req w =
      (inr (Response 500 (error_body "An error occurred while processing the file")), w') /\
    disk w' = <[py "uploads/notes.pdf" := Raw [1; 2; 3]]> (disk w) /\
    saved w' = saved w.
Proof.
  intros req w.
  apply (upload_pdf_keeps_unreadable_upload sample_platform req w
           (FileStorage (py "notes.pdf") (Raw [1; 2; 3]))).
  - reflexivity.
  - reflexivity.
  - discriminate.
  - exists (py "notes"), (py "pdf"). split; [reflexivity|].
    split; [by repeat constructor | by left].
  - vm_compute. reflexivity.
Defined.

(** X17: [fitz.open] goes by content, not by name. When an upload under an
    allowed name that is not taken for a ZIP holds a document that is no PDF
    (an image, say) and no call fails, nothing is saved and the upload stays
    in the upload folder; the answer is 200 with an empty list of files when
    no invoice of the document passes the filter, as when it has no marker
    page, and 500 otherwise, because [insert_pdf] refuses the source. *)
Theorem upload_of_other_document
    (P : platform) (req : request) (w : world) (file : file_storage) (doc : list page) :
  (forall n, fault P n = None) ->
  multidict_get (py "file") (files req) = Some file ->
  filename file <> [] ->
  has_allowed_extension P (filename file) ->
  endswith (lower P (secure_filename P (filename file))) (py ".zip") = false ->
  fitz_view P (stream file) = Some (Document false doc) ->
  let gstin_filter := Some (strip (default [] (multidict_get (py "gstin") (form req)))) in
  exists w',
    upload_pdf P req w =
      (inr (if decide (passing P gstin_filter (invoices doc) = [])
            then Response 200 [(py "message", JStr (py "Files processed successfully!"));
                               (py "files", JList [])]
            else Response 500 (error_body "An error occurred while processing the file")),
       w') /\
    (marker_positions doc = [] -> passing P gstin_filter (invoices doc) = []) /\
    disk w' =
      <[path_join UPLOAD_FOLDER (secure_filename P (filename file)) := stream file]> (disk w) /\
    saved w' = saved w.
Proof.
  intros Hq Hfile Hn Hok Hzip Hview gstin_filter.
  destruct (allowed_file_spec P (filename file) w) as (b & Hb & Hiff).
  assert (b = true) as -> by (by apply Hiff).
  set (file_path := path_join UPLOAD_FOLDER (secure_filename P (filename file))).
  set (w1 := World (<[file_path := stream file]> (disk w)) (saved w) (open_docs w)
                   (S (clock w))).
  destruct (split_invoices_foreign_quiet P Hq file_path gstin_filter (stream file) doc w1)
    as (w' & Hrun & Hs & Hd & _); [apply lookup_insert_eq | done |].
  exists w'. split; [|split; [|by split]].
  - unfold upload_pdf, try_except, upload_pdf_try, pystr_eqb. rewrite Hfile.
    rewrite bool_decide_eq_false_2 by done. unfold bind at 1. rewrite Hb. cbn [negb].
    unfold bind at 1. rewrite write_file_quiet by done. rewrite Hzip.
    unfold bind at 1. fold file_path. fold w1. fold gstin_filter. rewrite Hrun.
    by destruct (decide (passing P gstin_filter (invoices doc) = [])).
  - intros Hnone. pose proof (invoices_length doc) as Hlen. rewrite Hnone in Hlen.
    by destruct (invoices doc).
Qed.

Lemma upload_of_other_document_witness :
  let png := Raw [137; 80; 78; 71; 13; 10; 26; 10] in
  let req := Request [(py "file", FileStorage (py "scan.pdf") png)] [] in
  let w := sample_world [] in
  exists w',
    upload_pdf sample_platform req w =
      (inr (Response 200 [(py "message", JStr (py "Files processed successfully!"));
                          (py "files", JList [])]), w') /\
    disk w' = <[py "uploads/scan.pdf" := png]> (disk w) /\
    saved w' = saved w.
Proof.
  intros png req w.
  destruct (upload_of_other_document sample_platform req w
              (FileStorage (py "scan.pdf") png) [Page [] 0])
    as (w' & Hrun & _ & Hd & Hs).
  - reflexivity.
  - reflexivity.
  - discriminate.
  - exists (py "scan"), (py "pdf"). split; [reflexivity|].
    split; [by repeat constructor | by left].
  - vm_compute. reflexivity.
  - reflexivity.
  - exists w'. split; [|by split]. rewrite Hrun. reflexivity.
Defined.

(** ** ZIP uploads *)

Section ZipFacts.

Variable P : platform.
Hypothesis quiet_platform : forall n, fault P n = None.

Lemma for_each_app {A S} (l1 l2 : list A) (body : A -> S -> M S) s w :
  for_each (l1 ++ l2) body s w =
    bind (for_each l1 body s) (fun s' => for_each l2 body s') w.
Proof.
  revert s w. induction l1 as [|x l1 IH]; intros s w.
  - reflexivity.
  - cbn [app for_each]. unfold bind.
    destruct (body x s w) as [[e|s'] w1]; [done|]. rewrite IH. reflexivity.
Qed.

(** One PDF member, when no call fails: extracted, split, removed. *)
Lemma zip_step_quiet members gstin_filter f acc w doc :
  multidict_get f (rev members) = Some (Pdf doc) ->
  exists w',
    zip_step P members gstin_filter f acc w =
      (inr (acc ++ map (invoice_filename P)
                     (passing P (Some gstin_filter) (invoices doc))), w') /\
    saved w' =
      saved w ++ map (invoice_output P doc) (passing P (Some gstin_filter) (invoices doc)).
Proof.
  intros Hmem. unfold zip_step, zip_member.
  unfold bind at 1. unfold bind at 1. rewrite lib_call_quiet by done. rewrite Hmem.
  unfold ret at 1. unfold bind at 1. rewrite write_file_quiet by done.
  unfold bind at 1. rewrite lib_call_quiet by done.
  unfold bind at 1. rewrite write_file_quiet by done. cbn [disk saved open_docs clock].
  set (ext := path_join UPLOAD_FOLDER (secure_filename P f)).
  set (w3 := World (<[ext := Pdf doc]> (<[ext := Raw []]> (disk w))) (saved w) (open_docs w)
                   (S (S (S (S (clock w)))))).
  destruct (split_invoices_quiet P quiet_platform ext (Some gstin_filter) doc w3)
    as (w4 & Hrun & Hs & Hd & Ho); [apply lookup_insert_eq|].
  unfold bind at 1. rewrite Hrun.
  exists (World (delete ext (disk w4)) (saved w4) (open_docs w4) (S (clock w4))).
  split; [|by rewrite Hs].
  unfold os_remove, bind, get_disk, set_disk, ret. rewrite lib_call_quiet by done.
  cbn [disk saved open_docs clock].
  assert (is_Some (disk w4 !! ext)) as [b ->].
  { rewrite Hd, disk_after_spec. destruct (last_saved _ _); [eauto|].
    subst w3. cbn [disk]. rewrite lookup_insert_eq. eauto. }
  done.
Qed.

Lemma zip_loop_quiet members gstin_filter fs :
  Forall (fun f => exists doc, multidict_get f (rev members) = Some (Pdf doc)) fs ->
  forall acc w,
    exists parts w',
      for_each fs (zip_step P members gstin_filter) acc w = (inr (acc ++ concat parts), w') /\
      Forall2 (member_names P members gstin_filter) fs parts.
Proof.
  induction 1 as [|f fs [doc Hf] _ IH]; intros acc w.
  - exists [], w. simpl. by rewrite app_nil_r.
  - destruct (zip_step_quiet members gstin_filter f acc w doc Hf) as (w1 & Hstep & _).
    destruct (IH (acc ++ map (invoice_filename P)
                          (passing P (Some gstin_filter) (invoices doc))) w1)
      as (parts & w' & Hloop & Hparts).
    exists (map (invoice_filename P) (passing P (Some gstin_filter) (invoices doc)) :: parts),
           w'.
    split.
    + cbn [for_each]. unfold bind. rewrite Hstep, Hloop. simpl. by rewrite <- app_assoc.
    + constructor; [|done]. exists doc, (invoices doc).
      split; [done|]. split; [apply invoices_blocks | done].
Qed.

(** A member in which [fitz.open] reads no document, when no call fails:
    extracted, not removed. *)
Lemma zip_step_unread members gstin_filter f acc w b :
  multidict_get f (rev members) = Some b ->
  fitz_view P b = None ->
  exists e w',
    zip_step P members gstin_filter f acc w = (inl e, w') /\
    disk w' !! path_join UPLOAD_FOLDER (secure_filename P f) = Some b /\
    saved w' = saved w.
Proof.
  intros Hmem Hno. unfold zip_step, zip_member.
  unfold bind at 1. unfold bind at 1. rewrite lib_call_quiet by done. rewrite Hmem.
  unfold ret at 1. unfold bind at 1. rewrite write_file_quiet by done.
  unfold bind at 1. rewrite lib_call_quiet by done.
  unfold bind at 1. rewrite write_file_quiet by done. cbn [disk saved open_docs clock].
  set (ext := path_join UPLOAD_FOLDER (secure_filename P f)).
  set (w3 := World (<[ext := b]> (<[ext := Raw []]> (disk w))) (saved w) (open_docs w)
                   (S (S (S (S (clock w)))))).
  destruct (split_invoices_unread_quiet P quiet_platform ext (Some gstin_filter) w3)
    as [e Hrun].
  { intros content. subst w3. cbn [disk]. rewrite lookup_insert_eq. by intros [= <-]. }
  unfold bind at 1. rewrite Hrun. eexists _, _. split; [reflexivity|].
  subst w3. cbn [disk saved]. by rewrite lookup_insert_eq.
Qed.

Lemma zip_open_quiet path members w :
  disk w !! path = Some (Zip members) ->
  zip_open P path w =
    (inr members, World (disk w) (saved w) (open_docs w) (S (clock w))).
Proof.
  intros Hd. unfold zip_open, bind, get_disk. rewrite lib_call_quiet by done.
  cbn [disk]. by rewrite Hd.
Qed.

(** The upload of a ZIP archive up to the loop over its PDF members, when no
    call fails. *)
Lemma upload_zip_quiet req w file members :
  multidict_get (py "file") (files req) = Some file ->
  filename file <> [] ->
  has_allowed_extension P (filename file) ->
  endswith (lower P (secure_filename P (filename file))) (py ".zip") = true ->
  stream file = Zip members ->
  exists w1,
    saved w1 = saved w /\
    upload_pdf P req w =
      match for_each
              (filter (fun f => endswith (lower P f) (py ".pdf") = true) (map fst members))
              (zip_step P members (strip (default [] (multidict_get (py "gstin") (form req)))))
              [] w1 with
      | (inr split_files, w') =>
          (inr (Response 200 [(py "message", JStr (py "Files processed successfully!"));
                              (py "files", JList split_files)]), w')
      | (inl e, w') =>
          (inr (Response 500 (error_body "An error occurred while processing the file")), w')
      end.
Proof.
  intros Hfile Hn Hok Hzip Hstream.
  destruct (allowed_file_spec P (filename file) w) as (b & Hb & Hiff).
  assert (b = true) as -> by (by apply Hiff).
  set (file_path := path_join UPLOAD_FOLDER (secure_filename P (filename file))).
  exists (World (<[file_path := Zip members]> (disk w)) (saved w) (open_docs w)
            (S (S (clock w)))).
  split; [done|].
  unfold upload_pdf, try_except, upload_pdf_try, pystr_eqb. rewrite Hfile.
  rewrite bool_decide_eq_false_2 by done. unfold bind at 1. rewrite Hb. cbn [negb].
  unfold bind at 1. rewrite write_file_quiet by done. rewrite Hzip, Hstream.
  fold file_path. unfold bind at 1. unfold bind at 1.
  rewrite (zip_open_quiet file_path members) by apply lookup_insert_eq.
  cbn [disk saved open_docs clock].
  change (fun (pdf_file : pystr) (split_files : list pystr) => _)
    with (zip_step P members (strip (default [] (multidict_get (py "gstin") (form req))))).
  match goal with |- context [for_each ?l ?body ?s ?w1] =>
    destruct (for_each l body s w1) as [[e|split_files] w'] end; reflexivity.
Qed.

End ZipFacts.

(** X13: uploading a ZIP archive when no call fails and every member whose
    lower-cased name ends in ".pdf" is a PDF: the answer is 200, and its list
    of files is, member after member in archive order, the names of that
    member's invoices whose GSTIN passes the stripped [gstin] field. Members
    with other names are not looked at. *)
Theorem upload_zip_splits_every_pdf_member
    (P : platform) (req : request) (w : world) (file : file_storage)
    (members : list (pystr * blob)) :
  (forall n, fault P n = None) ->
  multidict_get (py "file") (files req) = Some file ->
  filename file <> [] ->
  has_allowed_extension P (filename file) ->
  endswith (lower P (secure_filename P (filename file))) (py ".zip") = true ->
  stream file = Zip members ->
  let gstin_filter := strip (default [] (multidict_get (py "gstin") (form req))) in
  let pdf_files :=
    filter (fun f => endswith (lower P f) (py ".pdf") = true) (map fst members) in
  Forall (fun f => exists doc, multidict_get f (rev members) = Some (Pdf doc)) pdf_files ->
  exists parts w',
    upload_pdf P req w =
      (inr (Response 200 [(py "message", JStr (py "Files processed successfully!"));
                          (py "files", JList (concat parts))]), w') /\
    Forall2 (member_names P members gstin_filter) pdf_files parts.
Proof.
  intros Hq Hfile Hn Hok Hzip Hstream gstin_filter pdf_files Hpdfs.
  destruct (upload_zip_quiet P Hq req w file members Hfile Hn Hok Hzip Hstream)
    as (w1 & _ & ->).
  destruct (zip_loop_quiet P Hq members gstin_filter pdf_files Hpdfs [] w1)
    as (parts & w' & Hloop & Hparts).
  fold gstin_filter pdf_files. rewrite Hloop. eauto.
Qed.

(** X14: the extracted copy of an archive member is removed only after the
    member was split. When no call fails, the PDF members before [f] are PDFs
    and the member [f] is named like a PDF but [fitz.open] reads no document
    in it, the answer is 500 and the extracted copy of [f] is left in the
    upload folder. *)
Theorem upload_zip_leaves_extracted_file
    (P : platform) (req : request) (w : world) (file : file_storage)
    (members : list (pystr * blob)) (before after : list pystr) (f : pystr) (b : blob) :
  (forall n, fault P n = None) ->
  multidict_get (py "file") (files req) = Some file ->
  filename file <> [] ->
  has_allowed_extension P (filename file) ->
  endswith (lower P (secure_filename P (filename file))) (py ".zip") = true ->
  stream file = Zip members ->
  filter (fun f => endswith (lower P f) (py ".pdf") = true) (map fst members)
    = before ++ f :: after ->
  Forall (fun f => exists doc, multidict_get f (rev members) = Some (Pdf doc)) before ->
  multidict_get f (rev members) = Some b ->
  fitz_view P b = None ->
  exists w',
    upload_pdf P req w =
      (inr (Response 500 (error_body "An error occurred while processing the file")), w') /\
    disk w' !! path_join UPLOAD_FOLDER (secure_filename P f) = Some b.
Proof.
  intros Hq Hfile Hn Hok Hzip Hstream Hpdfs Hbefore Hf Hno.
  destruct (upload_zip_quiet P Hq req w file members Hfile Hn Hok Hzip Hstream)
    as (w1 & _ & ->).
  rewrite Hpdfs, for_each_app.
  set (gstin_filter := strip (default [] (multidict_get (py "gstin") (form req)))).
  destruct (zip_loop_quiet P Hq members gstin_filter before Hbefore [] w1)
    as (parts & w2 & Hloop & _).
  unfold bind at 1. rewrite Hloop. cbn [for_each].
  destruct (zip_step_unread P Hq members gstin_filter f ([] ++ concat parts) w2 b Hf Hno)
    as (e & w' & Hstep & Hdisk & _).
  unfold bind at 1. rewrite Hstep. eauto.
Qed.

Lemma upload_zip_splits_every_pdf_member_witness :
  let members := [(py "a.pdf", Pdf sample_doc); (py "readme.txt", Raw [7]);
                  (py "b.PDF", Pdf sample_repeat_doc)] in
  let req := Request [(py "file", FileStorage (py "batch.zip") (Zip members))] [] in
  let w := sample_world [] in
  (upload_pdf sample_platform req w).1 =
    inr (Response 200
           [(py "message", JStr (py "Files processed successfully!"));
            (py "files",
             JList [py "A1_g1.pdf"; py "A2_G2.pdf";
                    py "A1_g1.pdf"; py "A2_G2.pdf"; py "A1_g1.pdf"])]) /\
  exists parts w',
    upload_pdf sample_platform req w =
      (inr (Response 200 [(py "message", JStr (py "Files processed successfully!"));
                          (py "files", JList (concat parts))]), w') /\
    Forall2 (member_names sample_platform members []) [py "a.pdf"; py "b.PDF"] parts.
Proof.
  intros members req w. split; [vm_compute; reflexivity|].
  apply (upload_zip_splits_every_pdf_member sample_platform req w
           (FileStorage (py "batch.zip") (Zip members)) members).
  - reflexivity.
  - reflexivity.
  - discriminate.
  - exists (py "batch"), (py "zip"). split; [reflexivity|].
    split; [by repeat constructor | by right].
  - vm_compute. reflexivity.
  - reflexivity.
  - change (Forall (fun f => exists doc, multidict_get f (rev members) = Some (Pdf doc))
              [py "a.pdf"; py "b.PDF"]).
    repeat constructor; eexists; vm_compute; reflexivity.
Defined.

Lemma upload_zip_leaves_extracted_file_witness :
  let members := [(py "a.pdf", Pdf sample_doc); (py "broken.pdf", Raw [9])] in
  let req := Request [(py "file", FileStorage (py "batch.zip") (Zip members))] [] in
  let w := sample_world [] in
  exists w',
    upload_pdf sample_platform req w =
      (inr (Response 500 (error_body "An error occurred while processing the file")), w') /\
    disk w' !! py "uploads/broken.pdf" = Some (Raw [9]).
Proof.
  intros members req w.
  apply (upload_zip_leaves_extracted_file sample_platform req w
           (FileStorage (py "batch.zip") (Zip members)) members
           [py "a.pdf"] [] (py "broken.pdf") (Raw [9])).
  - reflexivity.
  - reflexivity.
  - discriminate.
  - exists (py "batch"), (py "zip"). split; [reflexivity|].
    split; [by repeat constructor | by right].
  - vm_compute. reflexivity.
  - reflexivity.
  - vm_compute. reflexivity.
  - repeat constructor. eexists. vm_compute. reflexivity.
  - vm_compute. reflexivity.
  - reflexivity.
Defined.

(** ** The name check *)

(** X15: [allowed_file] never raises (its [rsplit(...)[1]] is only reached
    when there is a dot), changes nothing, and answers whether the part of
    the name after its last dot, lower-cased, is [pdf] or [zip]; so a name
    without a dot, or one like [bill.pdf.exe], is refused. *)
Theorem allowed_file_decides_last_extension (P : platform) (name : pystr) (w : world) :
  exists b,
    allowed_file P name w = (inr b, w) /\
    (b = true <-> has_allowed_extension P name) /\
    (forall stem ext,
       name = stem ++ py "." ++ ext -> Forall (fun c => c <> 46) ext ->
       b = existsb (pystr_eqb (lower P ext)) ALLOWED_EXTENSIONS).
Proof.
  destruct (allowed_file_spec P name w) as (b & Hb & Hiff).
  exists b. do 2 (split; [done|]). intros stem ext -> Hext.
  revert Hb. unfold allowed_file, rsplit1.
  change (stem ++ py "." ++ ext) with (stem ++ 46 :: ext).
  rewrite (rsplit_last_some 46 stem ext Hext).
  destruct (existsb (N.eqb 46) (stem ++ 46 :: ext)) eqn:Hdot.
  - unfold bind, index, ret. simpl. by intros [= <-].
  - exfalso. apply not_true_iff_false in Hdot. apply Hdot, existsb_exists.
    exists 46. split; [|done]. apply in_or_app. right. by left.
Qed.

Lemma allowed_file_decides_last_extension_witness :
  (allowed_file sample_platform (py "bill.pdf.exe") (sample_world [])).1 = inr false /\
  (allowed_file sample_platform (py "bill.tar.ZIP") (sample_world [])).1 = inr true /\
  exists b,
    allowed_file sample_platform (py "bill.pdf.exe") (sample_world [])
      = (inr b, sample_world []) /\
    b = existsb (pystr_eqb (lower sample_platform (py "exe"))) ALLOWED_EXTENSIONS.
Proof.
  do 2 (split; [vm_compute; reflexivity|]).
  destruct (allowed_file_decides_last_extension sample_platform (py "bill.pdf.exe")
              (sample_world [])) as (b & Hb & _ & Hext).
  exists b. split; [exact Hb|].
  apply (Hext (py "bill.pdf") (py "exe")); [reflexivity | by repeat constructor].
Defined.

(** ** One invoice per saved file *)

Section BlockFacts.

Variable doc : list page.

(** Before the first marker page of a range there is no marker page. *)
Lemma markers_from_first n : forall j k,
  (j <= k < default (j + n) (head (markers_from doc j n)))%nat ->
  from_option is_marker false (doc !! k) = false.
Proof.
  induction n as [|n IH]; intros j k Hk.
  - simpl in Hk. lia.
  - rewrite markers_from_cons in Hk.
    destruct (from_option is_marker false (doc !! j)) eqn:Hj; simpl in Hk; [lia|].
    destruct (decide (k = j)) as [->|Hne]; [done|].
    apply (IH (S j)). replace (S j + n)%nat with (j + S n)%nat by lia. lia.
Qed.

(** Every block starts at a marker page, is not empty, ends within the
    document and has no marker page after its first page. *)
Lemma blocks_spec n : forall j,
  Forall (fun b : nat * nat =>
            (j <= b.1 < b.2)%nat /\ (b.2 <= j + n)%nat /\
            from_option is_marker false (doc !! b.1) = true /\
            forall k, (b.1 < k < b.2)%nat -> from_option is_marker false (doc !! k) = false)
         (blocks (markers_from doc j n) (j + n)).
Proof.
  induction n as [|n IH]; intros j; [constructor|].
  rewrite markers_from_cons.
  pose proof (IH (S j)) as Hrest. replace (S j + n)%nat with (j + S n)%nat in Hrest by lia.
  assert (Forall (fun b : nat * nat =>
            (j <= b.1 < b.2)%nat /\ (b.2 <= j + S n)%nat /\
            from_option is_marker false (doc !! b.1) = true /\
            forall k, (b.1 < k < b.2)%nat -> from_option is_marker false (doc !! k) = false)
           (blocks (markers_from doc (S j) n) (j + S n))) as Hrest'.
  { eapply Forall_impl; [exact Hrest|]. intros [m nx] (? & ? & ? & ?). simpl in *.
    repeat split; auto; lia. }
  destruct (from_option is_marker false (doc !! j)) eqn:Hj; [|exact Hrest'].
  cbn [app blocks]. constructor; [|exact Hrest'].
  pose proof (markers_from_head doc (S j) n) as Hhd.
  replace (S j + n)%nat with (j + S n)%nat in Hhd by lia. simpl.
  repeat split; try lia; [done|].
  intros k Hk. apply (markers_from_first n (S j) k).
  replace (S j + n)%nat with (j + S n)%nat by lia. lia.
Qed.

Lemma slice_block m nx pgm :
  doc !! m = Some pgm -> (m < nx)%nat ->
  slice doc m nx = pgm :: slice doc (S m) nx.
Proof.
  intros Hm Hlt. unfold slice. rewrite (drop_S _ _ _ Hm).
  replace (nx - m)%nat with (S (nx - S m)) by lia. done.
Qed.

End BlockFacts.

(** X16: every file a returning run saves, under any filter, is one invoice:
    a run of consecutive pages of the document that is not empty, begins with
    a marker page and holds no other marker page. *)
Theorem saved_file_is_one_invoice
    (P : platform) (path : pystr) (gstin_filter : option pystr)
    (doc : list page) (w w' : world) (files : list pystr) :
  disk w !! path = Some (Pdf doc) ->
  split_invoices P path gstin_filter w = (inr files, w') ->
  exists outs,
    saved w' = saved w ++ outs /\
    length outs = length files /\
    forall k o,
      outs !! k = Some o ->
      exists m n pg rest,
        o.2 = slice doc m n /\ o.2 = pg :: rest /\
        is_marker pg = true /\ Forall (fun p => is_marker p = false) rest.
Proof.
  intros Hd Hrun.
  destruct (split_invoices_spec P doc gstin_filter path w _ _ Hd Hrun)
    as (_ & _ & -> & Hsaved & _).
  exists (map (invoice_output P doc) (passing P gstin_filter (invoices doc))).
  split; [done|]. split; [by rewrite !length_map|].
  intros k o Hk. rewrite lookup_map in Hk.
  destruct (passing P gstin_filter (invoices doc) !! k) as [inv|] eqn:Hinv; [|done].
  injection Hk as <-.
  apply list_elem_of_lookup_2, list_elem_of_filter in Hinv as [_ Hin].
  apply list_elem_of_lookup_1 in Hin as [i Hi].
  destruct (Forall2_lookup_r _ _ _ _ _ (invoices_blocks doc) Hi)
    as ([m nx] & Hb & pg & a & g & Hpg & Hmk & ->).
  pose proof (blocks_spec doc (length doc) 0%nat) as Hblocks.
  rewrite Forall_lookup in Hblocks. specialize (Hblocks i (m, nx) Hb).
  simpl in Hblocks, Hpg. destruct Hblocks as (Hlt & Hle & _ & Hnone).
  exists m, nx, pg, (slice doc (S m) nx). unfold invoice_output, inv_pages. simpl.
  rewrite copy_pages_seq. fold (slice doc m nx).
  split; [done|]. split; [by apply slice_block; [|lia]|].
  split; [unfold is_marker; by rewrite Hmk|].
  apply Forall_lookup. intros j p Hj. unfold slice in Hj.
  apply lookup_take_Some in Hj as [Hj Hjlt]. rewrite lookup_drop in Hj.
  specialize (Hnone (S m + j)%nat). rewrite Hj in Hnone. apply Hnone. lia.
Qed.

Lemma saved_file_is_one_invoice_witness :
  let w := sample_world sample_repeat_doc in
  let run := split_invoices sample_platform (py "uploads/in.pdf") (Some (py "G1")) w in
  exists outs,
    saved run.2 = saved w ++ outs /\
    length outs = length (returned run) /\
    forall k o,
      outs !! k = Some o ->
      exists m n pg rest,
        o.2 = slice sample_repeat_doc m n /\ o.2 = pg :: rest /\
        is_marker pg = true /\ Forall (fun p => is_marker p = false) rest.
Proof.
  intros w run.
  apply (saved_file_is_one_invoice sample_platform (py "uploads/in.pdf") (Some (py "G1"))
           sample_repeat_doc w run.2 (returned run)).
  - vm_compute. reflexivity.
  - vm_compute. reflexivity.
Defined.
